(** * elics: the entity handle ([src/Entity.ts])

    A shallow embedding of the [Entity] class and of the part of the
    JavaScript runtime it relies on (bit sets, typed arrays sharing an
    [ArrayBuffer], [Map]s keyed by object identity), followed by the
    properties of the handle's operations.

    Objects that the source shares by reference live in an explicit store:
    typed arrays and array buffers in [Memory], component classes in the
    [components] table of the [World].  The three managers injected into
    the constructor of [Entity] are an interface ([Managers]); every call
    the handle makes on one of them is also recorded, in order, in the
    [trace] of the world. *)

From Stdlib Require Import ZArith NArith Lia.
From stdpp Require Import gmap strings list fin_maps.

Local Open Scope string_scope.
Local Open Scope list_scope.
Local Open Scope nat_scope.
Local Open Scope stdpp_scope.

(** ** Bit sets

    The [bitset] package, restricted to the finite sets that [new BitSet()],
    [or], [andNot] and [and] build: a set of bit positions is its
    characteristic number. *)
Module BitSet.
Definition t := N.
Definition empty : t := 0%N.                       (* new BitSet() *)
Definition or (a b : t) : t := N.lor a b.
Definition andNot (a b : t) : t := N.ldiff a b.
Definition and (a b : t) : t := N.land a b.
Definition isEmpty (a : t) : bool := N.eqb a 0.
Definition get (a : t) (i : N) : bool := N.testbit a i.
End BitSet.

(** ** Values

    The fragment of [any] that the integer typed arrays can receive
    without floating point: [undefined], [null], booleans and
    integer-valued numbers. *)
Inductive JsValue :=
| JUndefined
| JNull
| JBool (b : bool)
| JNumber (z : Z).

(** ** Typed arrays *)

Inductive ElemKind := Int8 | Uint8 | Int16 | Uint16 | Int32 | Uint32.

Definition elem_bits (k : ElemKind) : Z :=
  match k with
  | Int8 | Uint8 => 8
  | Int16 | Uint16 => 16
  | Int32 | Uint32 => 32
  end.

Definition elem_signed (k : ElemKind) : bool :=
  match k with
  | Int8 | Int16 | Int32 => true
  | Uint8 | Uint16 | Uint32 => false
  end.

(** [ToNumber]; [None] stands for [NaN]. *)
Definition ToNumber (v : JsValue) : option Z :=
  match v with
  | JUndefined => None
  | JNull => Some 0%Z
  | JBool b => Some (if b then 1 else 0)%Z
  | JNumber z => Some z
  end.

(** [ToInt8], [ToUint8], ... of an integer: reduce modulo [2^bits], then
    read the top half as negative for the signed kinds. *)
Definition wrap (k : ElemKind) (z : Z) : Z :=
  let m := (z mod 2 ^ elem_bits k)%Z in
  if elem_signed k && (2 ^ (elem_bits k - 1) <=? m)%Z
  then (m - 2 ^ elem_bits k)%Z
  else m.

(** The number an element of kind [k] holds after [ta[i] = v]. *)
Definition coerce (k : ElemKind) (v : JsValue) : Z :=
  match ToNumber v with
  | Some z => wrap k z
  | None => 0%Z
  end.


(** A typed array object: a window of [ta_length] elements, starting at
    element [ta_offset], over the array buffer [ta_buffer]. *)
Record TypedArray := {
  ta_kind : ElemKind;
  ta_buffer : nat;
  ta_offset : nat;
  ta_length : nat;
}.

(** The object store for arrays.  A reference to a typed array is its
    position in [arrays] (objects are never freed, a new object takes the
    next position); an array buffer is the list of its elements. *)
Record Memory := {
  arrays : list TypedArray;
  buffers : list (list Z);
}.

(** [ta[i]] *)
Definition array_get (m : Memory) (a i : nat) : JsValue :=
  match arrays m !! a with
  | Some ta =>
      if decide (i < ta_length ta) then
        match buffers m !! ta_buffer ta ≫= (λ b, b !! (ta_offset ta + i)) with
        | Some z => JNumber z
        | None => JUndefined
        end
      else JUndefined
  | None => JUndefined
  end.

(** [ta[i] = v]: the value is coerced to the element kind; an index
    outside the array is ignored. *)
Definition array_set (m : Memory) (a i : nat) (v : JsValue) : Memory :=
  match arrays m !! a with
  | Some ta =>
      if decide (i < ta_length ta) then
        {| arrays := arrays m;
           buffers := alter (λ b, <[ta_offset ta + i := coerce (ta_kind ta) v]> b)
                            (ta_buffer ta) (buffers m) |}
      else m
  | None => m
  end.

(** [ta.subarray(begin, end)] for non-negative bounds: both are clamped to
    the length, and a new object over the same buffer is allocated. *)
Definition subarray (m : Memory) (a begin_ end_ : nat) : option (nat * Memory) :=
  ta ← arrays m !! a;
  let b := begin_ `min` ta_length ta in
  let e := end_ `min` ta_length ta in
  let view := {| ta_kind := ta_kind ta;
                 ta_buffer := ta_buffer ta;
                 ta_offset := ta_offset ta + b;
                 ta_length := e - b |} in
  Some (length (arrays m),
        {| arrays := arrays m ++ [view]; buffers := buffers m |}).

(** ** Component classes *)

Record SchemaField := {
  sf_type : string;
  sf_default : JsValue;
}.

(** The static side of a component class, as [Entity.ts] reads it:
    [bitmask] ([null] until the class is registered), [data] (field name to
    the reference of the field's array) and [schema]. *)
Record ComponentConstructor := {
  c_bitmask : option BitSet.t;
  c_data : gmap string nat;
  c_schema : gmap string SchemaField;
}.

(** ** The handle *)

Module ERRORS.
Definition MODIFY_DESTROYED_ENTITY := "Cannot modify a destroyed entity".
Definition ACCESS_DESTROYED_ENTITY := "Cannot access a destroyed entity".
End ERRORS.

(** The fields of [Entity].  [vectorViews] is keyed by the identity of the
    component class, then by field name, and holds array references. *)
Record Entity := {
  bitmask : BitSet.t;
  active : bool;
  vectorViews : gmap nat (gmap string nat);
  index : nat;
}.

(** [this.vectorViews.get(componentClass)?.get(key)] *)
Definition cachedView (e : Entity) (c : nat) (key : string) : option nat :=
  vectorViews e !! c ≫= (λ views, views !! key).

(** A handle on the index of [e], with any other fields. *)
Definition same_index (e : Entity) (b : BitSet.t) (a : bool)
    (vv : gmap nat (gmap string nat)) : Entity :=
  {| bitmask := b; active := a; vectorViews := vv; index := index e |}.

(** [new Entity(em, qm, cm, index)] *)
Definition newEntity (idx : nat) : Entity :=
  {| bitmask := BitSet.empty; active := true; vectorViews := ∅; index := idx |}.

Definition set_bitmask (b : BitSet.t) (e : Entity) : Entity :=
  {| bitmask := b; active := active e;
     vectorViews := vectorViews e; index := index e |}.

Definition set_active (a : bool) (e : Entity) : Entity :=
  {| bitmask := bitmask e; active := a;
     vectorViews := vectorViews e; index := index e |}.

Definition set_vectorViews (vv : gmap nat (gmap string nat)) (e : Entity) : Entity :=
  {| bitmask := bitmask e; active := active e;
     vectorViews := vv; index := index e |}.

(** A call of the handle on one of its managers, with the arguments as
    they are at the time of the call. *)
Inductive Event :=
| EvRelease (e : Entity)
| EvAttach (idx : nat) (c : nat) (initialData : gmap string JsValue)
| EvUpdate (e : Entity).

(** ** The managers

    The handle calls one method of each of the three managers it is
    constructed with, and reads [TypedArrayMap]; [Entity.ts] imports all
    four by type only.  It is modelled over any implementation with these
    signatures.  The entity and query managers own a state of their own
    and are handed the handle to read; the component manager works on the
    arrays and may replace the class's [data] references, but not its
    [bitmask] or [schema]. *)
Class Managers := {
  EntityManager : Type;
  QueryManager : Type;
  releaseEntityInstance : Entity → EntityManager → EntityManager;
  updateEntity : Entity → QueryManager → QueryManager;
  attachComponentToEntity :
    nat → ComponentConstructor → gmap string JsValue → Memory →
    gmap string nat * Memory;
  (** [TypedArrayMap[type].length] *)
  TypedArrayMap : gmap string nat;
}.

(** ** The world and the monad of handle operations *)

Section Handle.
Context `{Managers}.

Record World := {
  components : gmap nat ComponentConstructor;
  memory : Memory;
  entityManager : EntityManager;
  queryManager : QueryManager;
  trace : list Event;
}.

Definition set_components (cs : gmap nat ComponentConstructor) (w : World) : World :=
  {| components := cs; memory := memory w; entityManager := entityManager w;
     queryManager := queryManager w; trace := trace w |}.

Definition set_memory (m : Memory) (w : World) : World :=
  {| components := components w; memory := m; entityManager := entityManager w;
     queryManager := queryManager w; trace := trace w |}.

Definition set_entityManager (em : EntityManager) (w : World) : World :=
  {| components := components w; memory := memory w; entityManager := em;
     queryManager := queryManager w; trace := trace w |}.

Definition set_queryManager (qm : QueryManager) (w : World) : World :=
  {| components := components w; memory := memory w; entityManager := entityManager w;
     queryManager := qm; trace := trace w |}.

Definition log (ev : Event) (w : World) : World :=
  {| components := components w; memory := memory w; entityManager := entityManager w;
     queryManager := queryManager w; trace := trace w ++ [ev] |}.

(** What a method body runs on: the handle it is called on and the shared
    world. *)
Record State := {
  this : Entity;
  world : World;
}.

Inductive Exn :=
| Error (message : string)
| TypeError.

Inductive Outcome (A : Type) :=
| Returned (a : A)
| Thrown (e : Exn).
Global Arguments Returned {A} a.
Global Arguments Thrown {A} e.

(** A method body: it returns or throws, and in both cases leaves the
    state as the statements executed so far have made it. *)
Definition M (A : Type) : Type := State → Outcome A * State.

Definition ret {A} (a : A) : M A := λ s, (Returned a, s).

Definition throw {A} (e : Exn) : M A := λ s, (Thrown e, s).

Definition bind {A B} (m : M A) (k : A → M B) : M B :=
  λ s, match m s with
       | (Returned a, s') => k a s'
       | (Thrown e, s') => (Thrown e, s')
       end.

#[global] Instance M_ret : MRet M := @ret.
#[global] Instance M_bind : MBind M := λ A B k m, bind m k.

Definition getThis : M Entity := λ s, (Returned (this s), s).

Definition getWorld : M World := λ s, (Returned (world s), s).

Definition modifyThis (f : Entity → Entity) : M unit :=
  λ s, (Returned tt, {| this := f (this s); world := world s |}).

Definition modifyWorld (f : World → World) : M unit :=
  λ s, (Returned tt, {| this := this s; world := f (world s) |}).

(** Reading a property of [undefined] is a [TypeError]. *)
Definition defined {A} (o : option A) : M A :=
  match o with
  | Some a => ret a
  | None => throw TypeError
  end.

(** The three calls on the managers.  Each hands over the handle (or its
    index) as it is at that point, and is entered in the trace. *)
Definition call_releaseEntityInstance : M unit :=
  λ s, (Returned tt,
        {| this := this s;
           world := log (EvRelease (this s))
                      (set_entityManager
                         (releaseEntityInstance (this s) (entityManager (world s)))
                         (world s)) |}).

Definition call_updateEntity : M unit :=
  λ s, (Returned tt,
        {| this := this s;
           world := log (EvUpdate (this s))
                      (set_queryManager
                         (updateEntity (this s) (queryManager (world s)))
                         (world s)) |}).

Definition call_attachComponentToEntity
    (idx c : nat) (componentClass : ComponentConstructor)
    (initialData : gmap string JsValue) : M unit :=
  λ s, let '(d, m) := attachComponentToEntity idx componentClass initialData
                        (memory (world s)) in
       let componentClass' := {| c_bitmask := c_bitmask componentClass;
                                 c_data := d;
                                 c_schema := c_schema componentClass |} in
       (Returned tt,
        {| this := this s;
           world := log (EvAttach idx c initialData)
                      (set_memory m
                         (set_components
                            (<[c := componentClass']> (components (world s)))
                            (world s))) |}).

(** ** The methods of [Entity]

    A component class is passed by reference: [c] is its key in
    [components]. *)

Definition addComponent (c : nat) (initialData : option (gmap string JsValue))
    : M unit :=
  e ← getThis;
  if negb (active e) then throw (Error ERRORS.MODIFY_DESTROYED_ENTITY) else
  w ← getWorld;
  componentClass ← defined (components w !! c);
  match c_bitmask componentClass with
  | Some b =>
      modifyThis (set_bitmask (BitSet.or (bitmask e) b));;
      call_attachComponentToEntity (index e) c componentClass
        (default ∅ initialData);;
      call_updateEntity
  | None => throw (Error "Component type not registered")
  end.

Definition removeComponent (c : nat) : M unit :=
  e ← getThis;
  if negb (active e) then throw (Error ERRORS.MODIFY_DESTROYED_ENTITY) else
  w ← getWorld;
  componentClass ← defined (components w !! c);
  match c_bitmask componentClass with
  | Some b =>
      modifyThis (set_bitmask (BitSet.andNot (bitmask e) b));;
      call_updateEntity
  | None => throw (Error "Component not found")
  end.

Definition hasComponent (c : nat) : M bool :=
  e ← getThis;
  w ← getWorld;
  componentClass ← defined (components w !! c);
  match c_bitmask componentClass with
  | Some componentBitmask =>
      mret (negb (BitSet.isEmpty (BitSet.and (bitmask e) componentBitmask)))
  | None => throw (Error "Component type not registered")
  end.

Definition getValue (c : nat) (key : string) : M JsValue :=
  e ← getThis;
  w ← getWorld;
  componentClass ← defined (components w !! c);
  match c_data componentClass !! key with
  | Some a => mret (array_get (memory w) a (index e))
  | None => mret JUndefined
  end.

Definition setValue (c : nat) (key : string) (value : JsValue) : M unit :=
  e ← getThis;
  w ← getWorld;
  componentClass ← defined (components w !! c);
  componentData ← defined (c_data componentClass !! key);
  modifyWorld (set_memory (array_set (memory w) componentData (index e) value)).

Definition getVectorView (c : nat) (key : string) : M nat :=
  e ← getThis;
  match cachedView e c key with
  | Some cachedVectorView => mret cachedVectorView
  | None =>
      w ← getWorld;
      componentClass ← defined (components w !! c);
      let componentData := c_data componentClass !! key in
      field ← defined (c_schema componentClass !! key);
      length ← defined (TypedArrayMap !! sf_type field);
      let offset := index e * length in
      a ← defined componentData;
      '(vectorView, m) ← defined (subarray (memory w) a offset (offset + length));
      modifyWorld (set_memory m);;
      modifyThis (λ e, if decide (is_Some (vectorViews e !! c)) then e
                       else set_vectorViews (<[c := ∅]> (vectorViews e)) e);;
      modifyThis (λ e, set_vectorViews
                         (alter (λ views, <[key := vectorView]> views) c
                                (vectorViews e)) e);;
      mret vectorView
  end.

Definition destroy : M unit :=
  e ← getThis;
  if negb (active e) then throw (Error ERRORS.MODIFY_DESTROYED_ENTITY) else
  call_releaseEntityInstance;;
  modifyThis (set_active false);;
  modifyThis (set_bitmask BitSet.empty);;
  call_updateEntity.

End Handle.

(** ** Client calls

    What a client can do with a handle, as data: used to speak of every
    mutating call, and of arbitrary sequences of calls. *)

Inductive Mutation :=
| AddComponent (c : nat) (initialData : option (gmap string JsValue))
| RemoveComponent (c : nat)
| Destroy.

Inductive Call :=
| Mutate (m : Mutation)
| HasComponent (c : nat)
| GetValue (c : nat) (key : string)
| SetValue (c : nat) (key : string) (value : JsValue)
| GetVectorView (c : nat) (key : string).

Definition is_update (ev : Event) : bool :=
  match ev with
  | EvUpdate _ => true
  | _ => false
  end.

Definition is_release (ev : Event) : bool :=
  match ev with
  | EvRelease _ => true
  | _ => false
  end.

(** Every release in [evs] comes after every query notification in
    [evs], and there is such a notification. *)
Definition released_after_notifying (evs : list Event) : Prop :=
  ∀ i ev, evs !! i = Some ev → is_release ev = true →
    (∃ j ev', j < i ∧ evs !! j = Some ev' ∧ is_update ev' = true) ∧
    (∀ j ev', evs !! j = Some ev' → is_update ev' = true → j < i).

Section Calls.
Context `{Managers}.

Definition mutate (m : Mutation) : M unit :=
  match m with
  | AddComponent c initialData => addComponent c initialData
  | RemoveComponent c => removeComponent c
  | Destroy => destroy
  end.

(** The state a call leaves, and what it throws, if anything. *)
Definition perform (call : Call) (s : State) : State :=
  match call with
  | Mutate m => snd (mutate m s)
  | HasComponent c => snd (hasComponent c s)
  | GetValue c key => snd (getValue c key s)
  | SetValue c key value => snd (setValue c key value s)
  | GetVectorView c key => snd (getVectorView c key s)
  end.

Definition exn_of {A} (o : Outcome A) : option Exn :=
  match o with
  | Returned _ => None
  | Thrown e => Some e
  end.

Definition thrown (call : Call) (s : State) : option Exn :=
  match call with
  | Mutate m => exn_of (fst (mutate m s))
  | HasComponent c => exn_of (fst (hasComponent c s))
  | GetValue c key => exn_of (fst (getValue c key s))
  | SetValue c key value => exn_of (fst (setValue c key value s))
  | GetVectorView c key => exn_of (fst (getVectorView c key s))
  end.

(** A client that goes on after a failed call. *)
Definition performAll (calls : list Call) (s : State) : State :=
  foldl (λ s call, perform call s) s calls.

(** The events a method body adds to the trace. *)
Definition emitted {A} (m : M A) (s : State) : list Event :=
  drop (length (trace (world s))) (trace (world (snd (m s)))).

(** The bit of a component class, empty when there is none. *)
Definition bit_of (w : World) (c : nat) : BitSet.t :=
  default BitSet.empty (components w !! c ≫= c_bitmask).

(** The bitmask a mutating call is to leave. *)
Definition mutated_bitmask (m : Mutation) (s : State) : BitSet.t :=
  match m with
  | AddComponent c _ => BitSet.or (bitmask (this s)) (bit_of (world s) c)
  | RemoveComponent c => BitSet.andNot (bitmask (this s)) (bit_of (world s) c)
  | Destroy => BitSet.empty
  end.

(** The same state, with the active flag of the handle set to [a]. *)
Definition with_active (a : bool) (s : State) : State :=
  {| this := set_active a (this s); world := world s |}.

(** The buffer under the array [a], and under the array that is at present
    the [data] of field [key] of class [c]. *)
Definition array_buffer (w : World) (a : nat) : option nat :=
  ta_buffer <$> arrays (memory w) !! a.

Definition field_array (w : World) (c : nat) (key : string) : option nat :=
  components w !! c ≫= (λ cls, c_data cls !! key).

Definition field_buffer (w : World) (c : nat) (key : string) : option nat :=
  field_array w c key ≫= array_buffer w.


End Calls.

(** ** Following a handle through a sequence of calls *)

Definition is_destroy (call : Call) : bool :=
  match call with
  | Mutate Destroy => true
  | _ => false
  end.

(** The index an event is about. *)
Definition event_index (ev : Event) : nat :=
  match ev with
  | EvRelease e | EvUpdate e => index e
  | EvAttach idx _ _ => idx
  end.

(** Whether the handle is active and whether it holds class [c], call by
    call: [addComponent(c)] and [removeComponent(c)] on an active handle
    set and clear it, [destroy] ends both, nothing else counts. *)
Definition expected_holds (c : nat) (st : bool * bool) (call : Call) : bool * bool :=
  match call with
  | Mutate (AddComponent c' _) =>
      (fst st, if fst st && bool_decide (c' = c) then true else snd st)
  | Mutate (RemoveComponent c') =>
      (fst st, if fst st && bool_decide (c' = c) then false else snd st)
  | Mutate Destroy => (false, if fst st then false else snd st)
  | _ => st
  end.

Section Following.
Context `{Managers}.

(** [s'] differs from [s] at most in the arrays and in the view cache of
    the handle: same component classes, same manager states, same trace,
    same bitmask, active flag and index. *)
Definition quiet (s s' : State) : Prop :=
  components (world s') = components (world s) ∧
  entityManager (world s') = entityManager (world s) ∧
  queryManager (world s') = queryManager (world s) ∧
  trace (world s') = trace (world s) ∧
  bitmask (this s') = bitmask (this s) ∧
  active (this s') = active (this s) ∧
  index (this s') = index (this s).

(** [hasComponent(c)] seen as a boolean, for a class whose bit is [b]. *)
Definition holds_bit (s : State) (b : BitSet.t) : bool :=
  negb (BitSet.isEmpty (BitSet.and (bitmask (this s)) b)).

End Following.


(** ** The collaborators, as the specification describes them

    Used to run the handle on concrete worlds; the theorems below hold for
    every instance of [Managers]. *)

(** Modelled from the spec: [Types.ts] is missing; field types are named by
    strings and the table gives each its vector length (1 for scalars). *)
Definition specTypedArrayMap : gmap string nat :=
  {[ "Int8" := 1; "Int16" := 1; "Int32" := 1; "Vec2" := 2; "Vec3" := 3 ]}.

(** Modelled from the spec: [EntityManager.ts] is missing.  The pool keeps
    the released indices on a free list and the next index never used. *)
Record PoolState := {
  freeList : list nat;
  nextIndex : nat;
}.

(** Modelled from the spec: [EntityManager.releaseEntityInstance] is
    missing; it returns the handle's index to the free list. *)
Definition specReleaseEntityInstance (e : Entity) (p : PoolState) : PoolState :=
  {| freeList := index e :: freeList p; nextIndex := nextIndex p |}.

(** Modelled from the spec: the allocation side of [EntityManager] is
    missing; it reuses a released index in preference to a new one and
    binds a new handle to it. *)
Definition specRequestEntityInstance (p : PoolState) : Entity * PoolState :=
  match freeList p with
  | i :: rest => (newEntity i, {| freeList := rest; nextIndex := nextIndex p |})
  | [] => (newEntity (nextIndex p),
           {| freeList := []; nextIndex := S (nextIndex p) |})
  end.

(** Modelled from the spec: [QueryManager.ts] is missing.  A query is a
    required mask, an excluded mask and the set of matching indices. *)
Record Query := {
  requiredMask : BitSet.t;
  excludedMask : BitSet.t;
  matches : gset nat;
}.

Definition query_accepts (q : Query) (e : Entity) : bool :=
  active e
  && BitSet.isEmpty (BitSet.andNot (requiredMask q) (bitmask e))
  && BitSet.isEmpty (BitSet.and (bitmask e) (excludedMask q)).

(** Modelled from the spec: [QueryManager.updateEntity] is missing; it
    re-evaluates the entity against every query and adds its index to, or
    removes it from, the query's matches. *)
Definition specUpdateEntity (e : Entity) (qs : list Query) : list Query :=
  (λ q, {| requiredMask := requiredMask q;
           excludedMask := excludedMask q;
           matches := if query_accepts q e
                      then matches q ∪ {[ index e ]}
                      else matches q ∖ {[ index e ]} |}) <$> qs.

(** The elements seen through a typed array. *)
Definition array_contents (m : Memory) (ta : TypedArray) : list Z :=
  match buffers m !! ta_buffer ta with
  | Some b => take (ta_length ta) (drop (ta_offset ta) b)
  | None => []
  end.

(** Modelled from the spec: the growth of a field buffer in
    [ComponentManager.ts] is missing; copy-and-replace: a new buffer of [n]
    elements receives the old contents, and a new array over it is
    returned.  The old array and buffer stay as they are. *)
Definition growArray (m : Memory) (a n : nat) : nat * Memory :=
  match arrays m !! a with
  | Some ta =>
      let old := array_contents m ta in
      let grown := {| ta_kind := ta_kind ta;
                      ta_buffer := length (buffers m);
                      ta_offset := 0;
                      ta_length := n |} in
      (length (arrays m),
       {| arrays := arrays m ++ [grown];
          buffers := buffers m ++ [old ++ replicate (n - length old) 0%Z] |})
  | None => (a, m)
  end.

(** [initialData[field] ?? default] *)
Definition nullish_or (o : option JsValue) (d : JsValue) : JsValue :=
  match o with
  | Some JUndefined | Some JNull | None => d
  | Some v => v
  end.

(** Modelled from the spec: [ComponentManager.attachComponentToEntity] is
    missing.  For each declared field, the value [initialData[field] ??
    default] is written at the entity's slot, offset [index * length], after
    growing the buffer if the slot lies beyond its capacity. *)
Definition specAttachField (idx : nat) (initialData : gmap string JsValue)
    (key : string) (field : SchemaField) (acc : gmap string nat * Memory)
    : gmap string nat * Memory :=
  let '(d, m) := acc in
  match d !! key, specTypedArrayMap !! sf_type field with
  | Some a, Some len =>
      let capacity := from_option ta_length 0 (arrays m !! a) in
      let '(a', m') := if decide ((idx + 1) * len ≤ capacity) then (a, m)
                       else growArray m a ((idx + 1) * len) in
      (<[key := a']> d,
       array_set m' a' (idx * len) (nullish_or (initialData !! key) (sf_default field)))
  | _, _ => acc
  end.

Definition specAttachComponentToEntity (idx : nat)
    (componentClass : ComponentConstructor)
    (initialData : gmap string JsValue) (m : Memory) : gmap string nat * Memory :=
  map_fold (specAttachField idx initialData) (c_data componentClass, m)
           (c_schema componentClass).

#[export] Instance specManagers : Managers := {|
  EntityManager := PoolState;
  QueryManager := list Query;
  releaseEntityInstance := specReleaseEntityInstance;
  updateEntity := specUpdateEntity;
  attachComponentToEntity := specAttachComponentToEntity;
  TypedArrayMap := specTypedArrayMap;
|}.

(** *** A small world

    [Position] (class 0, bit 0) with an [Int8] field [x] and a [Vec2] field
    [v], [Velocity] (class 1, bit 1) with an [Int8] field [x], and
    [Health] (class 2), not registered.  Every buffer has room for two
    entities. *)
Definition Position : ComponentConstructor :=
  {| c_bitmask := Some 1%N;
     c_data := {[ "x" := 0; "v" := 1 ]};
     c_schema := {[ "x" := {| sf_type := "Int8"; sf_default := JNumber 0 |};
                    "v" := {| sf_type := "Vec2"; sf_default := JNumber 0 |} ]} |}.

Definition Velocity : ComponentConstructor :=
  {| c_bitmask := Some 2%N;
     c_data := {[ "x" := 2 ]};
     c_schema := {[ "x" := {| sf_type := "Int8"; sf_default := JNumber 0 |} ]} |}.

Definition Health : ComponentConstructor :=
  {| c_bitmask := None; c_data := ∅; c_schema := ∅ |}.

Definition world0 : World :=
  {| components := {[ 0 := Position; 1 := Velocity; 2 := Health ]};
     memory := {| arrays := [ {| ta_kind := Int8; ta_buffer := 0;
                                 ta_offset := 0; ta_length := 2 |};
                              {| ta_kind := Int8; ta_buffer := 1;
                                 ta_offset := 0; ta_length := 4 |};
                              {| ta_kind := Int8; ta_buffer := 2;
                                 ta_offset := 0; ta_length := 2 |} ];
                  buffers := [ [0; 0]; [0; 0; 0; 0]; [0; 0] ]%Z |};
     entityManager := {| freeList := []; nextIndex := 1 |};
     queryManager := [ {| requiredMask := 3%N; excludedMask := 0%N;
                          matches := ∅ |} ];
     trace := [] |}.

Definition state0 : State := {| this := newEntity 0; world := world0 |}.

(** *** Scenarios in the small world *)

(** The handle of index 0 asks for its view of [Position.v]; then the
    handle of index 3 receives [Position], whose slot lies beyond the two
    entities the buffers have room for; then handle 0 asks again. *)
Definition firstView : Outcome nat * State := getVectorView 0 "v" state0.

Definition grownWorld : World :=
  world (snd (addComponent 0 None
                {| this := newEntity 3; world := world (snd firstView) |})).

Definition secondView : Outcome nat * State :=
  getVectorView 0 "v" {| this := this (snd firstView); world := grownWorld |}.

(** The second view is another object than the first, over the buffer the
    field has in [w]. *)
Definition view_follows_growth (w : World) (c : nat) (key : string)
    (before after : Outcome nat) : Prop :=
  ∃ a a', before = Returned a ∧ after = Returned a' ∧ a' ≠ a ∧
          array_buffer w a' = field_buffer w c key.

(** The handle of index 0 once it holds [Position]. *)
Definition holdingPosition : State := snd (addComponent 0 None state0).

(** The handle of index 0 destroyed, and the handle the pool hands out
    next. *)
Definition afterDestroy : State := snd (destroy holdingPosition).

Definition reusingHandle : Entity :=
  fst (specRequestEntityInstance (entityManager (world afterDestroy))).

(** A client that goes on with the destroyed handle. *)
Definition laterCalls : list Call :=
  [ SetValue 0 "x" (JNumber 5); GetVectorView 0 "v";
    Mutate (AddComponent 1 None); HasComponent 0 ].



(** * Properties of the handle *)

Ltac unfold_M :=
  unfold defined in *;
  unfold mbind, M_bind, mret, M_ret, bind, ret, throw, getThis, getWorld,
    modifyThis, modifyWorld, call_updateEntity,
    call_releaseEntityInstance, call_attachComponentToEntity in *.

Ltac unfold_methods :=
  unfold mutate, addComponent, removeComponent, hasComponent, getValue,
    setValue, getVectorView, destroy in *;
  unfold_M.

(** [He : EvUpdate e ∈ evs] for an explicit list [evs]: [e] is one of the
    handles notified in [evs]. *)
Ltac only_update He :=
  repeat (apply elem_of_cons in He as [He | He]);
  [ try discriminate He; try (by injection He) .. | by apply elem_of_nil in He ].

Section Properties.
Context `{Managers}.

Implicit Types (s : State) (w : World) (e : Entity) (c : nat) (key : string).

(** ** Bit sets *)

Lemma andNot_or_absorb (a b : BitSet.t) :
  BitSet.andNot (BitSet.or a b) b = BitSet.andNot a b.
Proof.
  unfold BitSet.andNot, BitSet.or. apply N.bits_inj. intros i.
  rewrite !N.ldiff_spec, N.lor_spec.
  destruct (N.testbit a i), (N.testbit b i); reflexivity.
Qed.

Lemma andNot_disjoint (a b : BitSet.t) :
  BitSet.and a b = BitSet.empty → BitSet.andNot a b = a.
Proof.
  unfold BitSet.andNot, BitSet.and, BitSet.empty. intros Hdisj.
  apply N.bits_inj. intros i. rewrite N.ldiff_spec.
  assert (Hi : N.testbit (N.land a b) i = false) by (rewrite Hdisj; apply N.bits_0).
  rewrite N.land_spec in Hi.
  destruct (N.testbit a i), (N.testbit b i); simpl in *; congruence.
Qed.

Lemma and_empty_l (b : BitSet.t) : BitSet.and BitSet.empty b = BitSet.empty.
Proof. reflexivity. Qed.

Lemma nonempty_and_iff (a b : BitSet.t) :
  negb (BitSet.isEmpty (BitSet.and a b)) = true ↔
  ∃ i, BitSet.get a i = true ∧ BitSet.get b i = true.
Proof.
  unfold BitSet.isEmpty, BitSet.and, BitSet.get.
  rewrite negb_true_iff, N.eqb_neq. split.
  - intros Hne. destruct (N.land a b) as [|p] eqn:Hland; [done|].
    exists (N.log2 (N.pos p)).
    apply andb_true_iff. rewrite <- N.land_spec, Hland.
    apply N.bit_log2. discriminate.
  - intros (i & Ha & Hb) Hz.
    assert (Hi : N.testbit (N.land a b) i = true)
      by (rewrite N.land_spec, Ha, Hb; reflexivity).
    rewrite Hz, N.bits_0 in Hi. discriminate.
Qed.

(** ** Failure leaves no mark *)

(** In the three mutating methods, every [throw] comes before the first
    assignment and the first call on a manager. *)
Lemma mutate_thrown_unchanged (m : Mutation) s (x : Exn) s' :
  mutate m s = (Thrown x, s') → s' = s.
Proof.
  destruct m as [c d | c | ]; unfold_methods; simpl.
  - destruct (active (this s)); simpl; [|by intros [= _ <-]].
    destruct (components (world s) !! c) as [cls|]; simpl; [|by intros [= _ <-]].
    destruct (c_bitmask cls); simpl; [|by intros [= _ <-]].
    destruct (attachComponentToEntity _ _ _ _); simpl. discriminate.
  - destruct (active (this s)); simpl; [|by intros [= _ <-]].
    destruct (components (world s) !! c) as [cls|]; simpl; [|by intros [= _ <-]].
    destruct (c_bitmask cls); simpl; [discriminate | by intros [= _ <-]].
  - destruct (active (this s)); simpl; [discriminate | by intros [= _ <-]].
Qed.


(** A mutating call throws exactly when the handle is inactive, or the
    class reference has no registered bit. *)
Lemma mutate_inactive (m : Mutation) s :
  active (this s) = false →
  mutate m s = (Thrown (Error ERRORS.MODIFY_DESTROYED_ENTITY), s).
Proof.
  intros Hin. destruct m; unfold_methods; simpl; rewrite Hin; reflexivity.
Qed.

(** ** The order of the calls on the managers *)

Lemma destroy_active s :
  active (this s) = true →
  destroy s =
    (Returned tt,
     {| this := set_bitmask BitSet.empty (set_active false (this s));
        world :=
          log (EvUpdate (set_bitmask BitSet.empty (set_active false (this s))))
            (set_queryManager
               (updateEntity (set_bitmask BitSet.empty (set_active false (this s)))
                  (queryManager (world s)))
               (log (EvRelease (this s))
                  (set_entityManager
                     (releaseEntityInstance (this s) (entityManager (world s)))
                     (world s)))) |}).
Proof. intros Hact. unfold_methods. simpl. rewrite Hact. reflexivity. Qed.

Lemma addComponent_active s c cls b d :
  active (this s) = true →
  components (world s) !! c = Some cls →
  c_bitmask cls = Some b →
  ∃ data m,
    attachComponentToEntity (index (this s)) cls (default ∅ d) (memory (world s))
      = (data, m) ∧
    addComponent c d s =
      (Returned tt,
       {| this := set_bitmask (BitSet.or (bitmask (this s)) b) (this s);
          world :=
            log (EvUpdate (set_bitmask (BitSet.or (bitmask (this s)) b) (this s)))
              (set_queryManager
                 (updateEntity (set_bitmask (BitSet.or (bitmask (this s)) b) (this s))
                    (queryManager (world s)))
                 (log (EvAttach (index (this s)) c (default ∅ d))
                    (set_memory m
                       (set_components
                          (<[c := {| c_bitmask := c_bitmask cls; c_data := data;
                                     c_schema := c_schema cls |}]>
                             (components (world s)))
                          (world s))))) |}).
Proof.
  intros Hact Hc Hb.
  destruct (attachComponentToEntity (index (this s)) cls (default ∅ d)
              (memory (world s))) as [data m] eqn:Hatt.
  exists data, m. split; [reflexivity|].
  unfold_methods. rewrite Hact. simpl. rewrite Hc. simpl. rewrite Hb. simpl.
  rewrite Hatt. reflexivity.
Qed.

Lemma removeComponent_active s c cls b :
  active (this s) = true →
  components (world s) !! c = Some cls →
  c_bitmask cls = Some b →
  removeComponent c s =
    (Returned tt,
     {| this := set_bitmask (BitSet.andNot (bitmask (this s)) b) (this s);
        world :=
          log (EvUpdate (set_bitmask (BitSet.andNot (bitmask (this s)) b) (this s)))
            (set_queryManager
               (updateEntity (set_bitmask (BitSet.andNot (bitmask (this s)) b) (this s))
                  (queryManager (world s)))
               (world s)) |}).
Proof.
  intros Hact Hc Hb. unfold_methods. rewrite Hact. simpl. rewrite Hc. simpl.
  rewrite Hb. reflexivity.
Qed.

(** A mutating call that returns was made on an active handle, with a
    registered class if it names one. *)
Lemma mutate_returned_inv (m : Mutation) s s' :
  mutate m s = (Returned tt, s') →
  active (this s) = true ∧
  match m with
  | AddComponent c _ | RemoveComponent c =>
      ∃ cls b, components (world s) !! c = Some cls ∧ c_bitmask cls = Some b
  | Destroy => True
  end.
Proof.
  destruct m as [c d | c | ]; unfold_methods; simpl;
    (destruct (active (this s)); simpl; [|discriminate]); intros Hrun;
    (split; [reflexivity|]); try exact I;
    (destruct (components (world s) !! c) as [cls|]; simpl in *; [|discriminate]);
    (destruct (c_bitmask cls) as [b|] eqn:Hb; simpl in *; [|discriminate]);
    eauto.
Qed.

(** C1, as the code has it.  [destroy] on an active handle returns, and
    the calls it makes on the managers are, in this order: first
    [releaseEntityInstance], handed the handle while it is still active and
    carries the bitmask it had before the call; then, once the handle is
    inactive and its bitmask empty, the one [updateEntity].  The index is
    back in the pool before the query index hears of the destruction. *)
Theorem destroy_releases_before_notifying s :
  active (this s) = true →
  ∃ s',
    destroy s = (Returned tt, s') ∧
    this s' = set_bitmask BitSet.empty (set_active false (this s)) ∧
    trace (world s') =
      trace (world s) ++ [EvRelease (this s); EvUpdate (this s')] ∧
    entityManager (world s') =
      releaseEntityInstance (this s) (entityManager (world s)).
Proof.
  intros Hact. eexists. split; [apply destroy_active, Hact|].
  simpl. rewrite <- app_assoc. done.
Qed.

(** C6.  A mutating call that returns has made exactly one call of
    [updateEntity]; the handle passed to it is the handle as the call
    leaves it, whose bitmask is the mutated one ([or] with the class's bit
    after [addComponent], [andNot] after [removeComponent], empty after
    [destroy]); and the query manager's state is the result of that
    call. *)
Theorem one_notification_after_mutation (m : Mutation) s s' :
  mutate m s = (Returned tt, s') →
  ∃ evs,
    trace (world s') = trace (world s) ++ evs ∧
    length (filter (λ ev, is_update ev = true) evs) = 1 ∧
    (∀ e, EvUpdate e ∈ evs → e = this s') ∧
    bitmask (this s') = mutated_bitmask m s ∧
    queryManager (world s') = updateEntity (this s') (queryManager (world s)).
Proof.
  intros Hrun. destruct (mutate_returned_inv m s s' Hrun) as [Hact Hreg].
  destruct m as [c d | c | ]; simpl in Hrun.
  - destruct Hreg as (cls & b & Hc & Hb).
    destruct (addComponent_active s c cls b d Hact Hc Hb) as (data & mem & _ & Hadd).
    rewrite Hadd in Hrun. injection Hrun as <-.
    exists [EvAttach (index (this s)) c (default ∅ d);
            EvUpdate (set_bitmask (BitSet.or (bitmask (this s)) b) (this s))].
    simpl. unfold bit_of. rewrite Hc. simpl. rewrite Hb. simpl.
    rewrite <- app_assoc. repeat split; try done.
    intros e He. only_update He.
  - destruct Hreg as (cls & b & Hc & Hb).
    rewrite (removeComponent_active s c cls b Hact Hc Hb) in Hrun.
    injection Hrun as <-.
    exists [EvUpdate (set_bitmask (BitSet.andNot (bitmask (this s)) b) (this s))].
    simpl. unfold bit_of. rewrite Hc. simpl. rewrite Hb. simpl.
    repeat split; try done.
    intros e He. only_update He.
  - rewrite (destroy_active s Hact) in Hrun. injection Hrun as <-.
    exists [EvRelease (this s);
            EvUpdate (set_bitmask BitSet.empty (set_active false (this s)))].
    simpl. rewrite <- app_assoc. repeat split; try done.
    intros e He. only_update He.
Qed.

(** ** What the reading methods leave alone *)

Lemma hasComponent_pure c s : snd (hasComponent c s) = s.
Proof.
  unfold_methods. simpl.
  destruct (components (world s) !! c) as [cls|]; simpl; [|done].
  destruct (c_bitmask cls); done.
Qed.

Lemma getValue_pure c key s : snd (getValue c key s) = s.
Proof.
  unfold_methods. simpl.
  destruct (components (world s) !! c) as [cls|]; simpl; [|done].
  destruct (c_data cls !! key); done.
Qed.

(** What [getValue] returns is determined by the index of the handle, the
    component classes and the arrays. *)
Lemma getValue_depends c key e e' w w' :
  index e = index e' →
  components w = components w' →
  memory w = memory w' →
  fst (getValue c key {| this := e; world := w |}) =
  fst (getValue c key {| this := e'; world := w' |}).
Proof.
  intros Hi Hc Hm. unfold_methods. simpl. rewrite Hi, Hc, Hm.
  destruct (components w' !! c) as [cls|]; simpl; [|done].
  destruct (c_data cls !! key); done.
Qed.

Lemma setValue_this c key v s : this (snd (setValue c key v s)) = this s.
Proof.
  unfold_methods. simpl.
  destruct (components (world s) !! c) as [cls|]; simpl; [|done].
  destruct (c_data cls !! key); done.
Qed.

Lemma getVectorView_this c key s :
  active (this (snd (getVectorView c key s))) = active (this s) ∧
  bitmask (this (snd (getVectorView c key s))) = bitmask (this s) ∧
  index (this (snd (getVectorView c key s))) = index (this s).
Proof.
  unfold_methods. simpl.
  destruct (cachedView (this s) c key); simpl; [done|].
  destruct (components (world s) !! c) as [cls|]; simpl; [|done].
  destruct (c_schema cls !! key) as [field|]; simpl; [|done].
  destruct (TypedArrayMap !! sf_type field) as [len|]; simpl; [|done].
  destruct (c_data cls !! key) as [a|]; simpl; [|done].
  destruct (subarray _ _ _ _) as [[view m]|]; simpl; [|done].
  destruct (decide _); done.
Qed.

(** Whatever is called on an inactive handle, it stays inactive and keeps
    its bitmask. *)
Lemma perform_inactive (call : Call) s :
  active (this s) = false →
  active (this (perform call s)) = false ∧
  bitmask (this (perform call s)) = bitmask (this s).
Proof.
  intros Hin. destruct call as [m | c | c key | c key v | c key]; simpl.
  - rewrite (mutate_inactive m s Hin). done.
  - rewrite hasComponent_pure. done.
  - rewrite getValue_pure. done.
  - rewrite setValue_this. done.
  - destruct (getVectorView_this c key s) as (-> & -> & _). done.
Qed.

Lemma performAll_inactive (calls : list Call) s :
  active (this s) = false →
  active (this (performAll calls s)) = false ∧
  bitmask (this (performAll calls s)) = bitmask (this s).
Proof.
  revert s. induction calls as [|call calls IH]; intros s Hin; [done|].
  simpl. destruct (perform_inactive call s Hin) as [Hin' Hmask].
  destruct (IH _ Hin') as [IHa IHb]. split; [done | congruence].
Qed.

(** ** Membership *)

(** C7.  In every state of a handle, so after any sequence of calls on it:
    for a class with a bit, [hasComponent] returns, changes nothing, and
    its result is [true] exactly when the handle's bitmask and the
    class's bit have a position in common; for a class without a bit it
    throws [Error "Component type not registered"]. *)
Theorem hasComponent_iff_intersection (calls : list Call) s0 c cls :
  components (world (performAll calls s0)) !! c = Some cls →
  match c_bitmask cls with
  | Some b =>
      ∃ r, hasComponent c (performAll calls s0) = (Returned r, performAll calls s0) ∧
           (r = true ↔
            ∃ i, BitSet.get (bitmask (this (performAll calls s0))) i = true ∧
                 BitSet.get b i = true)
  | None =>
      hasComponent c (performAll calls s0) =
        (Thrown (Error "Component type not registered"), performAll calls s0)
  end.
Proof.
  generalize (performAll calls s0). intros s Hc.
  unfold_methods. simpl. rewrite Hc. simpl.
  destruct (c_bitmask cls) as [b|]; [|done].
  eexists. split; [done|]. apply nonempty_and_iff.
Qed.

(** ** After [destroy] *)

(** C5.  Once [destroy] has returned, and whatever calls are made on the
    handle afterwards: [hasComponent] returns [false] for every class with
    a bit, and [addComponent], [removeComponent] and [destroy] throw
    [Error "Cannot modify a destroyed entity"], leaving the state as it
    is. *)
Theorem destroyed_handle_is_inert s s' (calls : list Call) :
  destroy s = (Returned tt, s') →
  (∀ c cls b,
     components (world (performAll calls s')) !! c = Some cls →
     c_bitmask cls = Some b →
     hasComponent c (performAll calls s') = (Returned false, performAll calls s')) ∧
  (∀ m : Mutation,
     mutate m (performAll calls s') =
       (Thrown (Error "Cannot modify a destroyed entity"), performAll calls s')).
Proof.
  intros Hrun.
  destruct (mutate_returned_inv Destroy s s' Hrun) as [Hact _].
  rewrite (destroy_active s Hact) in Hrun. injection Hrun as <-.
  match goal with |- context [performAll calls ?s1] =>
    destruct (performAll_inactive calls s1 eq_refl) as [Hin Hmask];
    generalize dependent (performAll calls s1)
  end.
  simpl. intros s2 Hin Hmask. split.
  - intros c cls b Hc Hb. unfold_methods. simpl. rewrite Hc. simpl.
    rewrite Hb, Hmask. reflexivity.
  - intros m. apply mutate_inactive, Hin.
Qed.

(** ** Adding, then removing *)

(** C3, as the code has it.  On an active handle and for a class with a
    bit, [addComponent] and then [removeComponent] both return, and the
    bitmask they leave is the one before the add without the class's bit.
    It is the bitmask before the add when the handle did not hold the
    class then. *)
Theorem add_then_remove_bitmask s c cls b d :
  active (this s) = true →
  components (world s) !! c = Some cls →
  c_bitmask cls = Some b →
  ∃ s1 s2,
    addComponent c d s = (Returned tt, s1) ∧
    removeComponent c s1 = (Returned tt, s2) ∧
    bitmask (this s2) = BitSet.andNot (bitmask (this s)) b ∧
    (BitSet.and (bitmask (this s)) b = BitSet.empty →
     bitmask (this s2) = bitmask (this s)).
Proof.
  intros Hact Hc Hb.
  destruct (addComponent_active s c cls b d Hact Hc Hb) as (data & m & _ & Hadd).
  eexists. eexists. split; [exact Hadd|].
  split.
  - apply removeComponent_active with (cls := {| c_bitmask := c_bitmask cls;
                                                  c_data := data;
                                                  c_schema := c_schema cls |});
      simpl; [done | apply lookup_insert_eq | done].
  - simpl. rewrite andNot_or_absorb. split; [done|].
    intros Hdisj. by apply andNot_disjoint.
Qed.

(** ** [removeComponent] and the store *)

(** C9.  [removeComponent] on an active handle, for a class with a bit,
    returns; it clears the class's bit in the handle's bitmask and calls
    [updateEntity] once, with the handle so changed.  The component
    classes, the arrays and their buffers, the entity manager and the
    other fields of the handle are as before: every [getValue], on any
    handle, reads what it read before. *)
Theorem removeComponent_keeps_store s c cls b :
  active (this s) = true →
  components (world s) !! c = Some cls →
  c_bitmask cls = Some b →
  ∃ s',
    removeComponent c s = (Returned tt, s') ∧
    this s' = set_bitmask (BitSet.andNot (bitmask (this s)) b) (this s) ∧
    components (world s') = components (world s) ∧
    memory (world s') = memory (world s) ∧
    entityManager (world s') = entityManager (world s) ∧
    queryManager (world s') = updateEntity (this s') (queryManager (world s)) ∧
    trace (world s') = trace (world s) ++ [EvUpdate (this s')] ∧
    ∀ e c' key,
      fst (getValue c' key {| this := e; world := world s' |}) =
      fst (getValue c' key {| this := e; world := world s |}).
Proof.
  intros Hact Hc Hb. eexists.
  split; [apply (removeComponent_active s c cls b Hact Hc Hb)|].
  simpl. repeat split; try done.
  intros e c' key. by apply getValue_depends.
Qed.

(** ** Writing and reading a field *)



(** An index outside the array: the write is dropped, and the read gives
    [undefined]. *)
Lemma array_get_set_outside (m : Memory) (a i : nat) (v : JsValue)
    (ta : TypedArray) :
  arrays m !! a = Some ta →
  ta_length ta ≤ i →
  array_set m a i v = m ∧ array_get m a i = JUndefined.
Proof.
  intros Ha Hi. unfold array_set, array_get. rewrite Ha.
  destruct (decide (i < ta_length ta)); [lia | done].
Qed.


(** ** The cache of vector views *)

Lemma cachedView_set_bitmask b e c key :
  cachedView (set_bitmask b e) c key = cachedView e c key.
Proof. reflexivity. Qed.

Lemma cachedView_set_active a e c key :
  cachedView (set_active a e) c key = cachedView e c key.
Proof. reflexivity. Qed.

Lemma getVectorView_cached s c key a :
  cachedView (this s) c key = Some a →
  getVectorView c key s = (Returned a, s).
Proof. intros Hcache. unfold_methods. simpl. rewrite Hcache. reflexivity. Qed.

(** The two [Map] updates that enter a view in the cache. *)
Lemma cachedView_enter e c key (view : nat) c' key' :
  cachedView
    (set_vectorViews
       (alter (λ views : gmap string nat, <[key := view]> views) c
          (vectorViews
             (if decide (is_Some (vectorViews e !! c)) then e
              else set_vectorViews (<[c := ∅]> (vectorViews e)) e)))
       (if decide (is_Some (vectorViews e !! c)) then e
        else set_vectorViews (<[c := ∅]> (vectorViews e)) e))
    c' key' =
  if decide (c = c' ∧ key = key') then Some view else cachedView e c' key'.
Proof.
  unfold cachedView. simpl.
  destruct (decide (is_Some (vectorViews e !! c))) as [[views Hviews]|Hnone]; simpl.
  - destruct (decide (c = c')) as [<-|Hc].
    + rewrite lookup_alter_eq, Hviews. simpl.
      destruct (decide (key = key')) as [<-|Hkey].
      * rewrite lookup_insert_eq. by rewrite decide_True.
      * rewrite lookup_insert_ne by done. rewrite decide_False by (intros [? ?]; done).
        done.
    + rewrite lookup_alter_ne by done. by rewrite decide_False by (intros [? ?]; done).
  - apply eq_None_not_Some in Hnone.
    destruct (decide (c = c')) as [<-|Hc].
    + rewrite lookup_alter_eq, lookup_insert_eq, Hnone. simpl.
      destruct (decide (key = key')) as [<-|Hkey].
      * rewrite lookup_insert_eq. by rewrite decide_True.
      * rewrite lookup_insert_ne by done. rewrite decide_False by (intros [? ?]; done).
        done.
    + rewrite lookup_alter_ne, lookup_insert_ne by done.
      by rewrite decide_False by (intros [? ?]; done).
Qed.

(** A call of [getVectorView] that returns leaves its result in the
    cache. *)
Lemma getVectorView_caches s c key a s' :
  getVectorView c key s = (Returned a, s') →
  cachedView (this s') c key = Some a.
Proof.
  unfold_methods. simpl.
  destruct (cachedView (this s) c key) as [cached|] eqn:Hcache; simpl.
  { by intros [= <- <-]. }
  destruct (components (world s) !! c) as [cls|]; simpl; [|done].
  destruct (c_schema cls !! key) as [field|]; simpl; [|done].
  destruct (TypedArrayMap !! sf_type field) as [len|]; simpl; [|done].
  destruct (c_data cls !! key) as [arr|]; simpl; [|done].
  destruct (subarray _ _ _ _) as [[view m]|]; simpl; [|done].
  intros [= <- <-]. simpl. rewrite cachedView_enter. by rewrite decide_True.
Qed.

(** No call on the handle takes a view out of the cache, or replaces
    it. *)
Lemma perform_keeps_cachedView (call : Call) s c key a :
  cachedView (this s) c key = Some a →
  cachedView (this (perform call s)) c key = Some a.
Proof.
  intros Hcache. destruct call as [m | c' | c' key' | c' key' v | c' key']; simpl.
  - destruct (mutate m s) as [[[]|x] s1] eqn:Hrun; simpl.
    + destruct (mutate_returned_inv m s s1 Hrun) as [Hact Hreg].
      destruct m as [c' d | c' | ]; simpl in Hrun.
      * destruct Hreg as (cls & b & Hc & Hb).
        destruct (addComponent_active s c' cls b d Hact Hc Hb)
          as (data & mem & _ & Hadd).
        rewrite Hadd in Hrun. by injection Hrun as <-.
      * destruct Hreg as (cls & b & Hc & Hb).
        rewrite (removeComponent_active s c' cls b Hact Hc Hb) in Hrun.
        by injection Hrun as <-.
      * rewrite (destroy_active s Hact) in Hrun. by injection Hrun as <-.
    + by rewrite (mutate_thrown_unchanged m s x s1 Hrun).
  - by rewrite hasComponent_pure.
  - by rewrite getValue_pure.
  - by rewrite setValue_this.
  - unfold_methods. simpl.
    destruct (cachedView (this s) c' key') as [cached|] eqn:Hcache'; simpl; [done|].
    destruct (components (world s) !! c') as [cls|]; simpl; [|done].
    destruct (c_schema cls !! key') as [field|]; simpl; [|done].
    destruct (TypedArrayMap !! sf_type field) as [len|]; simpl; [|done].
    destruct (c_data cls !! key') as [arr|]; simpl; [|done].
    destruct (subarray _ _ _ _) as [[view m]|]; simpl; [|done].
    rewrite cachedView_enter.
    destruct (decide (c' = c ∧ key' = key)) as [[-> ->]|]; [congruence | done].
Qed.

Lemma performAll_keeps_cachedView (calls : list Call) s c key a :
  cachedView (this s) c key = Some a →
  cachedView (this (performAll calls s)) c key = Some a.
Proof.
  revert s. induction calls as [|call calls IH]; intros s Hcache; [done|].
  simpl. by apply IH, perform_keeps_cachedView.
Qed.

(** C2, as the code has it.  Once [getVectorView(C, f)] has returned a
    view, every later [getVectorView(C, f)] on the handle returns that same
    view and changes nothing, whatever calls were made on the handle in
    between and whatever state the world is in by then: the handle never
    takes a view out of its cache, so a change of the field's array by the
    component store is not seen. *)
Theorem getVectorView_returns_cached_view s c key a s' (calls : list Call) w :
  getVectorView c key s = (Returned a, s') →
  getVectorView c key {| this := this (performAll calls s'); world := w |} =
    (Returned a, {| this := this (performAll calls s'); world := w |}).
Proof.
  intros Hrun. apply getVectorView_cached. simpl.
  by apply performAll_keeps_cachedView, (getVectorView_caches s).
Qed.

(** What the first call builds: a new array, over the buffer of the array
    that is the field's [data] at that time, at the slot of the handle. *)
Lemma getVectorView_fresh s c cls key field len arr ta :
  cachedView (this s) c key = None →
  components (world s) !! c = Some cls →
  c_schema cls !! key = Some field →
  TypedArrayMap !! sf_type field = Some len →
  c_data cls !! key = Some arr →
  arrays (memory (world s)) !! arr = Some ta →
  ∃ s',
    getVectorView c key s = (Returned (length (arrays (memory (world s)))), s') ∧
    arrays (memory (world s')) =
      arrays (memory (world s)) ++
      [ {| ta_kind := ta_kind ta;
           ta_buffer := ta_buffer ta;
           ta_offset := ta_offset ta + (index (this s) * len) `min` ta_length ta;
           ta_length := (index (this s) * len + len) `min` ta_length ta
                        - (index (this s) * len) `min` ta_length ta |} ] ∧
    buffers (memory (world s')) = buffers (memory (world s)).
Proof.
  intros Hcache Hc Hfield Hlen Harr Hta. eexists.
  unfold_methods. simpl. rewrite Hcache, Hc. simpl.
  rewrite Hfield. simpl. rewrite Hlen. simpl. rewrite Harr. simpl.
  unfold subarray. rewrite Hta. simpl. done.
Qed.

(** ** The active flag and the reading methods *)

Lemma thrown_mutate (m : Mutation) s (x : Exn) :
  exn_of (fst (mutate m s)) = Some x →
  x = Error ERRORS.MODIFY_DESTROYED_ENTITY ∨
  x = Error "Component type not registered" ∨
  x = Error "Component not found" ∨
  x = TypeError.
Proof.
  destruct m as [c d | c | ]; unfold_methods; simpl;
    (destruct (active (this s)); simpl; [|intros [= <-]; auto]).
  - destruct (components (world s) !! c) as [cls|]; simpl; [|intros [= <-]; auto].
    destruct (c_bitmask cls); simpl; [|intros [= <-]; auto].
    destruct (attachComponentToEntity _ _ _ _); simpl. discriminate.
  - destruct (components (world s) !! c) as [cls|]; simpl; [|intros [= <-]; auto].
    destruct (c_bitmask cls); simpl; [discriminate|intros [= <-]; auto].
  - discriminate.
Qed.

Lemma thrown_cases (call : Call) s (x : Exn) :
  thrown call s = Some x →
  x = Error ERRORS.MODIFY_DESTROYED_ENTITY ∨
  x = Error "Component type not registered" ∨
  x = Error "Component not found" ∨
  x = TypeError.
Proof.
  destruct call as [m | c | c key | c key v | c key]; simpl.
  - apply thrown_mutate.
  - unfold_methods. simpl.
    destruct (components (world s) !! c) as [cls|]; simpl; [|intros [= <-]; auto].
    destruct (c_bitmask cls); simpl; [discriminate|intros [= <-]; auto].
  - unfold_methods. simpl.
    destruct (components (world s) !! c) as [cls|]; simpl; [|intros [= <-]; auto].
    destruct (c_data cls !! key); discriminate.
  - unfold_methods. simpl.
    destruct (components (world s) !! c) as [cls|]; simpl; [|intros [= <-]; auto].
    destruct (c_data cls !! key); simpl; [discriminate|intros [= <-]; auto].
  - unfold_methods. simpl.
    destruct (cachedView (this s) c key); simpl; [discriminate|].
    destruct (components (world s) !! c) as [cls|]; simpl; [|intros [= <-]; auto].
    destruct (c_schema cls !! key) as [field|]; simpl; [|intros [= <-]; auto].
    destruct (TypedArrayMap !! sf_type field) as [len|]; simpl; [|intros [= <-]; auto].
    destruct (c_data cls !! key) as [arr|]; simpl; [|intros [= <-]; auto].
    destruct (subarray _ _ _ _) as [[view m]|]; simpl; [|intros [= <-]; auto].
    discriminate.
Qed.

(** C10.  [hasComponent], [getValue], [setValue] and [getVectorView] do
    the same whatever the active flag of the handle is: same result, same
    effect on the world and on the other fields of the handle.  What
    [getValue] reads and [setValue] writes is fixed by the index of the
    handle, so another handle of the same index, whatever its bitmask,
    active flag and cache, reads and writes the same slots.  No call at all throws
    [Error "Cannot access a destroyed entity"]. *)
Theorem reading_methods_ignore_active :
  (∀ (a : bool) s,
     (∀ c, hasComponent c (with_active a s) =
           (fst (hasComponent c s), with_active a (snd (hasComponent c s)))) ∧
     (∀ c key, getValue c key (with_active a s) =
               (fst (getValue c key s), with_active a (snd (getValue c key s)))) ∧
     (∀ c key v, setValue c key v (with_active a s) =
                 (fst (setValue c key v s),
                  with_active a (snd (setValue c key v s)))) ∧
     (∀ c key, getVectorView c key (with_active a s) =
               (fst (getVectorView c key s),
                with_active a (snd (getVectorView c key s))))) ∧
  (∀ e (b' : BitSet.t) (a' : bool) (vv' : gmap nat (gmap string nat)) w c key v,
     world (snd (setValue c key v {| this := e; world := w |})) =
       world (snd (setValue c key v {| this := same_index e b' a' vv'; world := w |})) ∧
     fst (getValue c key {| this := e; world := w |}) =
       fst (getValue c key {| this := same_index e b' a' vv'; world := w |})) ∧
  (∀ (call : Call) s,
     thrown call s ≠ Some (Error "Cannot access a destroyed entity")).
Proof.
  split; [|split].
  - intros a s. repeat split.
    + intros c. unfold_methods. simpl.
      destruct (components (world s) !! c) as [cls|]; simpl; [|done].
      destruct (c_bitmask cls); done.
    + intros c key. unfold_methods. simpl.
      destruct (components (world s) !! c) as [cls|]; simpl; [|done].
      destruct (c_data cls !! key); done.
    + intros c key v. unfold_methods. simpl.
      destruct (components (world s) !! c) as [cls|]; simpl; [|done].
      destruct (c_data cls !! key); done.
    + intros c key. unfold_methods. simpl.
      rewrite cachedView_set_active.
      destruct (cachedView (this s) c key); simpl; [done|].
      destruct (components (world s) !! c) as [cls|]; simpl; [|done].
      destruct (c_schema cls !! key) as [field|]; simpl; [|done].
      destruct (TypedArrayMap !! sf_type field) as [len|]; simpl; [|done].
      destruct (c_data cls !! key) as [arr|]; simpl; [|done].
      destruct (subarray _ _ _ _) as [[view m]|]; simpl; [|done].
      destruct (decide _); done.
  - intros e b' a' vv' w c key v. split.
    + unfold_methods. simpl.
      destruct (components w !! c) as [cls|]; simpl; [|done].
      destruct (c_data cls !! key); done.
    + by apply getValue_depends.
  - intros call s Hthrown.
    destruct (thrown_cases call s _ Hthrown) as [Hx | [Hx | [Hx | Hx]]];
      discriminate Hx.
Qed.

End Properties.

(** * The small world, run

    Each statement above at an instance in the small world, and the
    inputs on which the handle departs from what one might expect. *)


(** C1 fails as stated: in [destroy], the release does not come after the
    query notification.  It is the first call made. *)
Lemma destroy_releases_first :
  fst (destroy holdingPosition) = Returned tt ∧
  emitted destroy holdingPosition =
    [EvRelease (this holdingPosition); EvUpdate (this afterDestroy)] ∧
  ¬ released_after_notifying (emitted destroy holdingPosition).
Proof.
  split; [vm_compute; reflexivity|]. split; [vm_compute; reflexivity|].
  intros Hafter.
  destruct (Hafter 0 (EvRelease (this holdingPosition)))
    as [(j & ev & Hj & _) _]; [vm_compute; reflexivity | reflexivity | lia].
Qed.

Lemma destroy_releases_before_notifying_witness :
  active (this holdingPosition) = true ∧
  ∃ s',
    destroy holdingPosition = (Returned tt, s') ∧
    this s' = set_bitmask BitSet.empty (set_active false (this holdingPosition)) ∧
    trace (world s') =
      trace (world holdingPosition) ++
      [EvRelease (this holdingPosition); EvUpdate (this s')] ∧
    entityManager (world s') =
      releaseEntityInstance (this holdingPosition)
        (entityManager (world holdingPosition)).
Proof.
  split; [reflexivity|].
  apply (destroy_releases_before_notifying holdingPosition). reflexivity.
Defined.

(** C2 fails as stated: handle 0 has its view of [Position.v]; the store
    then replaces the field's array by a larger one over a new buffer; the
    next call on handle 0 returns the first view again, which is over the
    old buffer. *)
Lemma stale_view_after_growth :
  field_array (world (snd firstView)) 0 "v" = Some 1 ∧
  field_array grownWorld 0 "v" = Some 5 ∧
  field_buffer (world (snd firstView)) 0 "v" = Some 1 ∧
  field_buffer grownWorld 0 "v" = Some 4 ∧
  fst firstView = Returned 3 ∧
  fst secondView = Returned 3 ∧
  array_buffer grownWorld 3 = Some 1 ∧
  ¬ view_follows_growth grownWorld 0 "v" (fst firstView) (fst secondView).
Proof.
  repeat (split; [vm_compute; reflexivity|]).
  intros (a & a' & Ha & Ha' & Hne & _).
  vm_compute in Ha, Ha'. congruence.
Qed.

Lemma getVectorView_returns_cached_view_witness :
  getVectorView 0 "v" state0 = (Returned 3, snd firstView) ∧
  getVectorView 0 "v"
    {| this := this (performAll [Mutate (RemoveComponent 0)] (snd firstView));
       world := grownWorld |} =
    (Returned 3,
     {| this := this (performAll [Mutate (RemoveComponent 0)] (snd firstView));
        world := grownWorld |}).
Proof.
  split; [vm_compute; reflexivity|].
  apply (getVectorView_returns_cached_view state0 0 "v" 3 (snd firstView)).
  vm_compute; reflexivity.
Defined.

(** C3 fails as stated: a handle that holds [Position] is given
    [Position] again and then loses it; its bitmask is not the one before
    the add. *)
Lemma add_then_remove_clears_held_bit :
  active (this holdingPosition) = true ∧
  bitmask (this holdingPosition) = 1%N ∧
  fst (addComponent 0 None holdingPosition) = Returned tt ∧
  fst (removeComponent 0 (snd (addComponent 0 None holdingPosition))) = Returned tt ∧
  bitmask (this (snd (removeComponent 0 (snd (addComponent 0 None holdingPosition)))))
    = 0%N ∧
  bitmask (this (snd (removeComponent 0 (snd (addComponent 0 None holdingPosition)))))
    ≠ bitmask (this holdingPosition).
Proof.
  repeat (split; [vm_compute; reflexivity|]).
  vm_compute. discriminate.
Qed.

Lemma add_then_remove_bitmask_witness :
  active (this state0) = true ∧
  components (world state0) !! 1 = Some Velocity ∧
  c_bitmask Velocity = Some 2%N ∧
  ∃ s1 s2,
    addComponent 1 None state0 = (Returned tt, s1) ∧
    removeComponent 1 s1 = (Returned tt, s2) ∧
    bitmask (this s2) = BitSet.andNot (bitmask (this state0)) 2%N ∧
    (BitSet.and (bitmask (this state0)) 2%N = BitSet.empty →
     bitmask (this s2) = bitmask (this state0)).
Proof.
  split; [reflexivity|]. split; [vm_compute; reflexivity|]. split; [reflexivity|].
  apply (add_then_remove_bitmask state0 1 Velocity 2%N None);
    [reflexivity | vm_compute; reflexivity | reflexivity].
Defined.

Lemma destroyed_handle_is_inert_witness :
  destroy holdingPosition = (Returned tt, afterDestroy) ∧
  (∀ c cls b,
     components (world (performAll laterCalls afterDestroy)) !! c = Some cls →
     c_bitmask cls = Some b →
     hasComponent c (performAll laterCalls afterDestroy) =
       (Returned false, performAll laterCalls afterDestroy)) ∧
  (∀ m : Mutation,
     mutate m (performAll laterCalls afterDestroy) =
       (Thrown (Error "Cannot modify a destroyed entity"),
        performAll laterCalls afterDestroy)).
Proof.
  split; [vm_compute; reflexivity|].
  apply (destroyed_handle_is_inert holdingPosition afterDestroy laterCalls).
  vm_compute; reflexivity.
Defined.

Lemma one_notification_after_mutation_witness :
  mutate (RemoveComponent 0) holdingPosition =
    (Returned tt, snd (removeComponent 0 holdingPosition)) ∧
  ∃ evs,
    trace (world (snd (removeComponent 0 holdingPosition))) =
      trace (world holdingPosition) ++ evs ∧
    length (filter (λ ev, is_update ev = true) evs) = 1 ∧
    (∀ e, EvUpdate e ∈ evs → e = this (snd (removeComponent 0 holdingPosition))) ∧
    bitmask (this (snd (removeComponent 0 holdingPosition))) =
      mutated_bitmask (RemoveComponent 0) holdingPosition ∧
    queryManager (world (snd (removeComponent 0 holdingPosition))) =
      updateEntity (this (snd (removeComponent 0 holdingPosition)))
        (queryManager (world holdingPosition)).
Proof.
  split; [vm_compute; reflexivity|].
  apply (one_notification_after_mutation (RemoveComponent 0) holdingPosition).
  vm_compute; reflexivity.
Defined.

Lemma hasComponent_iff_intersection_witness :
  components (world (performAll [Mutate (AddComponent 1 None)] holdingPosition)) !! 0
    = Some Position ∧
  ∃ r,
    hasComponent 0 (performAll [Mutate (AddComponent 1 None)] holdingPosition) =
      (Returned r, performAll [Mutate (AddComponent 1 None)] holdingPosition) ∧
    (r = true ↔
     ∃ i, BitSet.get
            (bitmask (this (performAll [Mutate (AddComponent 1 None)] holdingPosition)))
            i = true ∧
          BitSet.get 1%N i = true).
Proof.
  split; [vm_compute; reflexivity|].
  apply (hasComponent_iff_intersection [Mutate (AddComponent 1 None)]
           holdingPosition 0 Position).
  vm_compute; reflexivity.
Defined.



Lemma removeComponent_keeps_store_witness :
  active (this holdingPosition) = true ∧
  components (world holdingPosition) !! 0 = Some Position ∧
  c_bitmask Position = Some 1%N ∧
  ∃ s',
    removeComponent 0 holdingPosition = (Returned tt, s') ∧
    this s' = set_bitmask (BitSet.andNot (bitmask (this holdingPosition)) 1%N)
                (this holdingPosition) ∧
    components (world s') = components (world holdingPosition) ∧
    memory (world s') = memory (world holdingPosition) ∧
    entityManager (world s') = entityManager (world holdingPosition) ∧
    queryManager (world s') =
      updateEntity (this s') (queryManager (world holdingPosition)) ∧
    trace (world s') = trace (world holdingPosition) ++ [EvUpdate (this s')] ∧
    ∀ e c' key,
      fst (getValue c' key {| this := e; world := world s' |}) =
      fst (getValue c' key {| this := e; world := world holdingPosition |}).
Proof.
  split; [reflexivity|]. split; [vm_compute; reflexivity|]. split; [reflexivity|].
  apply (removeComponent_keeps_store holdingPosition 0 Position 1%N);
    [reflexivity | vm_compute; reflexivity | reflexivity].
Defined.

(** The scenario of C10: the destroyed handle of index 0 and the handle
    the pool hands out next share the index, and what is written through
    the first is read through the second. *)
Example destroyed_handle_aliases_reused_index :
  active (this afterDestroy) = false ∧
  active reusingHandle = true ∧
  index reusingHandle = index (this afterDestroy) ∧
  fst (getValue 0 "x"
         {| this := reusingHandle;
            world := world (snd (setValue 0 "x" (JNumber 7) afterDestroy)) |})
    = Returned (JNumber 7).
Proof. repeat split; vm_compute; reflexivity. Qed.

(** The scenario of section 8 of the specification, on the query
    requiring [Position] and [Velocity]. *)
Example scenario_query_follows_bitmask :
  matches <$> queryManager (world (performAll
      [Mutate (AddComponent 0 None); Mutate (AddComponent 1 None)] state0))
    = [ {[ 0 ]} ] ∧
  matches <$> queryManager (world (performAll
      [Mutate (AddComponent 0 None); Mutate (AddComponent 1 None);
       Mutate (RemoveComponent 1)] state0))
    = [ ∅ ].
Proof. split; vm_compute; reflexivity. Qed.

(** * Further properties of the handle *)

Section Further.
Context `{Managers}.

Implicit Types (s : State) (w : World) (e : Entity) (c : nat) (key : string).

(** ** When a mutating call returns *)


(** ** A mutation, then [hasComponent] *)

Lemma and_or_same_nonempty (a b : BitSet.t) :
  b ≠ BitSet.empty →
  negb (BitSet.isEmpty (BitSet.and (BitSet.or a b) b)) = true.
Proof.
  intros Hb. apply nonempty_and_iff.
  unfold BitSet.empty in Hb. destruct b as [|p]; [done|].
  exists (N.log2 (N.pos p)). unfold BitSet.get, BitSet.or.
  rewrite N.lor_spec, N.bit_log2 by discriminate. by rewrite orb_true_r.
Qed.

Lemma and_andNot_same (a b : BitSet.t) :
  BitSet.and (BitSet.andNot a b) b = BitSet.empty.
Proof.
  unfold BitSet.and, BitSet.andNot, BitSet.empty. apply N.bits_inj. intros i.
  rewrite N.land_spec, N.ldiff_spec, N.bits_0.
  destruct (N.testbit a i), (N.testbit b i); reflexivity.
Qed.

(** X2.  After [addComponent(C)] has returned, [hasComponent(C)] returns
    [true], for every class whose bitmask has at least one bit. *)
Theorem addComponent_then_hasComponent s c cls b d s1 :
  components (world s) !! c = Some cls →
  c_bitmask cls = Some b →
  b ≠ BitSet.empty →
  addComponent c d s = (Returned tt, s1) →
  hasComponent c s1 = (Returned true, s1).
Proof.
  intros Hc Hb Hne Hrun.
  destruct (mutate_returned_inv (AddComponent c d) s s1 Hrun) as [Hact _].
  destruct (addComponent_active s c cls b d Hact Hc Hb) as (data & mem & _ & Hadd).
  rewrite Hadd in Hrun. injection Hrun as <-.
  unfold_methods. simpl. rewrite lookup_insert_eq. simpl. rewrite Hb.
  by rewrite and_or_same_nonempty.
Qed.

(** X3.  After [removeComponent(C)] has returned, [hasComponent(C)]
    returns [false], whether or not the handle held [C] before. *)
Theorem removeComponent_then_hasComponent s c s1 :
  removeComponent c s = (Returned tt, s1) →
  hasComponent c s1 = (Returned false, s1).
Proof.
  intros Hrun.
  destruct (mutate_returned_inv (RemoveComponent c) s s1 Hrun)
    as [Hact (cls & b & Hc & Hb)].
  rewrite (removeComponent_active s c cls b Hact Hc Hb) in Hrun.
  injection Hrun as <-.
  unfold_methods. simpl. rewrite Hc. simpl. rewrite Hb.
  by rewrite and_andNot_same.
Qed.

(** ** What the other four methods never do *)

Lemma getVectorView_keeps_components s c key :
  components (world (snd (getVectorView c key s))) = components (world s).
Proof.
  unfold_methods. simpl.
  destruct (cachedView (this s) c key); simpl; [done|].
  destruct (components (world s) !! c) as [cls|]; simpl; [|done].
  destruct (c_schema cls !! key) as [field|]; simpl; [|done].
  destruct (TypedArrayMap !! sf_type field) as [len|]; simpl; [|done].
  destruct (c_data cls !! key) as [arr|]; simpl; [|done].
  destruct (subarray _ _ _ _) as [[view m]|]; simpl; done.
Qed.

(** X4.  [hasComponent], [getValue], [setValue] and [getVectorView] make
    no call on a manager and assign none of [bitmask], [active] and
    [index]: the trace, both manager states and the component classes are
    as before, whether the method returns or throws. *)
Theorem reading_and_writing_fields_is_quiet s :
  (∀ c, quiet s (perform (HasComponent c) s)) ∧
  (∀ c key, quiet s (perform (GetValue c key) s)) ∧
  (∀ c key v, quiet s (perform (SetValue c key v) s)) ∧
  (∀ c key, quiet s (perform (GetVectorView c key) s)).
Proof.
  unfold quiet. repeat split; simpl;
    try (rewrite hasComponent_pure; reflexivity);
    try (rewrite getValue_pure; reflexivity);
    try (apply getVectorView_this);
    try (by rewrite setValue_this); clear; unfold_methods; simpl;
    try (destruct (cachedView (this s) c key); simpl; [done|]);
    (destruct (components (world s) !! c) as [cls|]; simpl; [|done]);
    try (destruct (c_data cls !! key); done);
    (destruct (c_schema cls !! key) as [field|]; simpl; [|done]);
    (destruct (TypedArrayMap !! sf_type field) as [len|]; simpl; [|done]);
    (destruct (c_data cls !! key) as [arr|]; simpl; [|done]);
    (destruct (subarray _ _ _ _) as [[view m]|]; simpl; done).
Qed.

(** ** Fields that are not there, slots that are not there *)

Lemma state_eta s : {| this := this s; world := world s |} = s.
Proof. by destruct s. Qed.

Lemma set_memory_same w : set_memory (memory w) w = w.
Proof. by destruct w. Qed.


(** X6.  When the index of the handle is beyond the end of the field's
    array, [setValue] returns without having written anything, and
    [getValue] returns [undefined]: no error is raised and the array is
    not grown. *)
Theorem slot_beyond_array s c cls key a ta (v : JsValue) :
  components (world s) !! c = Some cls →
  c_data cls !! key = Some a →
  arrays (memory (world s)) !! a = Some ta →
  ta_length ta ≤ index (this s) →
  setValue c key v s = (Returned tt, s) ∧
  getValue c key s = (Returned JUndefined, s).
Proof.
  intros Hc Hkey Ha Hlen.
  destruct (array_get_set_outside (memory (world s)) a (index (this s)) v ta Ha Hlen)
    as [Hset Hget].
  unfold_methods. simpl. rewrite Hc. simpl. rewrite Hkey. simpl.
  rewrite Hset, Hget, set_memory_same, state_eta. done.
Qed.

(** X7.  A [getVectorView] that throws throws a [TypeError] and has
    changed nothing: no array is allocated and nothing enters the cache. *)
Theorem failed_getVectorView_changes_nothing s c key (x : Exn) s' :
  getVectorView c key s = (Thrown x, s') →
  s' = s ∧ x = TypeError.
Proof.
  unfold_methods. simpl.
  destruct (cachedView (this s) c key); simpl; [done|].
  destruct (components (world s) !! c) as [cls|]; simpl; [|by intros [= <- <-]].
  destruct (c_schema cls !! key) as [field|]; simpl; [|by intros [= <- <-]].
  destruct (TypedArrayMap !! sf_type field) as [len|]; simpl; [|by intros [= <- <-]].
  destruct (c_data cls !! key) as [arr|]; simpl; [|by intros [= <- <-]].
  destruct (subarray _ _ _ _) as [[view m]|]; simpl; [done | by intros [= <- <-]].
Qed.

(** ** One slot, several ways in *)

(** Two arrays over one buffer: an element written through the first is
    read through the second at the position that falls on the same
    element of the buffer. *)
Lemma array_get_set_alias (m : Memory) (a1 i1 a2 i2 : nat) (v : JsValue)
    (t1 t2 : TypedArray) (buf : list Z) :
  arrays m !! a1 = Some t1 →
  arrays m !! a2 = Some t2 →
  ta_buffer t2 = ta_buffer t1 →
  ta_offset t2 + i2 = ta_offset t1 + i1 →
  i1 < ta_length t1 →
  i2 < ta_length t2 →
  buffers m !! ta_buffer t1 = Some buf →
  ta_offset t1 + i1 < length buf →
  array_get (array_set m a1 i1 v) a2 i2 = JNumber (coerce (ta_kind t1) v).
Proof.
  intros Ha1 Ha2 Hbuf Hpos Hi1 Hi2 Hb Hlen. unfold array_set. rewrite Ha1.
  destruct (decide (i1 < ta_length t1)); [|lia].
  unfold array_get. simpl. rewrite Ha2.
  destruct (decide (i2 < ta_length t2)); [|lia].
  rewrite Hbuf, Hpos, list_lookup_alter_eq, Hb. simpl.
  rewrite list_lookup_insert_eq by done. reflexivity.
Qed.

(** Within one array, a write leaves the other elements as they are. *)
Lemma array_get_set_other (m : Memory) (a i j : nat) (v : JsValue) :
  i ≠ j → array_get (array_set m a i v) a j = array_get m a j.
Proof.
  intros Hij. unfold array_set.
  destruct (arrays m !! a) as [ta|] eqn:Ha; [|done].
  destruct (decide (i < ta_length ta)); [|done].
  unfold array_get. simpl. rewrite Ha.
  destruct (decide (j < ta_length ta)); [|done].
  rewrite list_lookup_alter_eq.
  destruct (buffers m !! ta_buffer ta) as [buf|]; simpl; [|done].
  rewrite list_lookup_insert_ne by lia. reflexivity.
Qed.

Lemma array_set_shape (m : Memory) (a i : nat) (v : JsValue) :
  arrays (array_set m a i v) = arrays m ∧
  length <$> buffers (array_set m a i v) = length <$> buffers m.
Proof.
  unfold array_set.
  destruct (arrays m !! a) as [ta|]; [|done].
  destruct (decide (i < ta_length ta)); [|done].
  simpl. split; [done|].
  apply list_eq. intros k. rewrite !list_lookup_fmap.
  destruct (decide (k = ta_buffer ta)) as [->|Hk].
  - rewrite list_lookup_alter_eq.
    destruct (buffers m !! ta_buffer ta); simpl; [|done].
    by rewrite length_insert.
  - by rewrite list_lookup_alter_ne.
Qed.

(** X8.  [setValue] on one handle leaves the value of the same field as
    read through a handle of another index unchanged; it allocates no
    array and changes the length of no buffer. *)
Theorem setValue_keeps_other_slots s c key (v : JsValue) e' :
  index e' ≠ index (this s) →
  fst (getValue c key
         {| this := e'; world := world (snd (setValue c key v s)) |}) =
    fst (getValue c key {| this := e'; world := world s |}) ∧
  arrays (memory (world (snd (setValue c key v s)))) = arrays (memory (world s)) ∧
  length <$> buffers (memory (world (snd (setValue c key v s)))) =
    length <$> buffers (memory (world s)).
Proof.
  intros Hidx. unfold_methods. simpl.
  destruct (components (world s) !! c) as [cls|] eqn:Hc; simpl; [|by rewrite Hc].
  destruct (c_data cls !! key) as [a|] eqn:Hkey; simpl.
  - rewrite Hc. simpl. rewrite Hkey.
    rewrite array_get_set_other by done.
    split; [done|]. apply array_set_shape.
  - rewrite Hc. simpl. by rewrite Hkey.
Qed.

(** X9.  The first [getVectorView(C, f)] of a handle whose slot lies
    within the field's array returns a new array object of the declared
    length, over the buffer of the field's array, starting at element
    [index * length] of it.  Element [j] of the view is element
    [index * length + j] of the field's array, which is what [getValue]
    and [setValue] address through a handle of that index: a value written
    on either side is read on the other. *)
Theorem getVectorView_is_window s c cls key field len arr ta buf :
  cachedView (this s) c key = None →
  components (world s) !! c = Some cls →
  c_schema cls !! key = Some field →
  TypedArrayMap !! sf_type field = Some len →
  c_data cls !! key = Some arr →
  arrays (memory (world s)) !! arr = Some ta →
  buffers (memory (world s)) !! ta_buffer ta = Some buf →
  ta_offset ta + ta_length ta ≤ length buf →
  (index (this s) + 1) * len ≤ ta_length ta →
  ∃ view s',
    getVectorView c key s = (Returned view, s') ∧
    arrays (memory (world s)) !! view = None ∧
    arrays (memory (world s')) !! view =
      Some {| ta_kind := ta_kind ta;
              ta_buffer := ta_buffer ta;
              ta_offset := ta_offset ta + index (this s) * len;
              ta_length := len |} ∧
    ∀ j (v : JsValue), j < len →
      fst (getValue c key
             {| this := newEntity (index (this s) * len + j);
                world := set_memory (array_set (memory (world s')) view j v)
                           (world s') |}) =
        Returned (JNumber (coerce (ta_kind ta) v)) ∧
      array_get
        (memory (world (snd (setValue c key v
                               {| this := newEntity (index (this s) * len + j);
                                  world := world s' |}))))
        view j =
        JNumber (coerce (ta_kind ta) v).
Proof.
  intros Hcache Hc Hfield Hlen Harr Hta Hbuf Hwithin Hslot.
  destruct (getVectorView_fresh s c cls key field len arr ta
              Hcache Hc Hfield Hlen Harr Hta) as (s' & Hrun & Harrays & Hbuffers).
  assert (Hcomp : components (world s') = components (world s)).
  { pose proof (getVectorView_keeps_components s c key) as Hq.
    by rewrite Hrun in Hq. }
  assert (Hmin1 : (index (this s) * len) `min` ta_length ta = index (this s) * len)
    by lia.
  assert (Hmin2 : (index (this s) * len + len) `min` ta_length ta
                  = index (this s) * len + len) by lia.
  rewrite Hmin1, Hmin2 in Harrays.
  replace (index (this s) * len + len - index (this s) * len) with len
    in Harrays by lia.
  set (window := {| ta_kind := ta_kind ta; ta_buffer := ta_buffer ta;
                    ta_offset := ta_offset ta + index (this s) * len;
                    ta_length := len |}) in *.
  assert (Hview : arrays (memory (world s')) !! length (arrays (memory (world s)))
                  = Some window).
  { rewrite Harrays. by apply list_lookup_middle. }
  assert (Harr' : arrays (memory (world s')) !! arr = Some ta).
  { rewrite Harrays. by apply lookup_app_l_Some. }
  exists (length (arrays (memory (world s)))), s'.
  split; [done|]. split; [by apply lookup_ge_None_2|]. split; [done|].
  intros j v Hj. split.
  - unfold_methods. simpl. rewrite Hcomp, Hc. simpl. rewrite Harr.
    rewrite (array_get_set_alias _ _ _ _ _ _ window ta buf); simpl;
      first [done | lia | by rewrite Hbuffers | idtac].
  - unfold_methods. simpl. rewrite Hcomp, Hc. simpl. rewrite Harr. simpl.
    rewrite (array_get_set_alias _ _ _ _ _ _ ta window buf); simpl;
      first [done | lia | by rewrite Hbuffers | idtac].
Qed.

(** X10.  Whatever the index of the handle, the view a first
    [getVectorView] builds lies within the field's array: it never has more
    elements than the declared length, never reaches outside the array;
    and when the array ends at or before element [index * length], the
    view is empty, and no error is raised. *)
Theorem getVectorView_stays_within_array s c cls key field len arr ta :
  cachedView (this s) c key = None →
  components (world s) !! c = Some cls →
  c_schema cls !! key = Some field →
  TypedArrayMap !! sf_type field = Some len →
  c_data cls !! key = Some arr →
  arrays (memory (world s)) !! arr = Some ta →
  ∃ view s' window,
    getVectorView c key s = (Returned view, s') ∧
    arrays (memory (world s')) !! view = Some window ∧
    cachedView (this s') c key = Some view ∧
    ta_buffer window = ta_buffer ta ∧
    ta_length window ≤ len ∧
    ta_offset ta ≤ ta_offset window ∧
    ta_offset window + ta_length window ≤ ta_offset ta + ta_length ta ∧
    (ta_length ta ≤ index (this s) * len → ta_length window = 0).
Proof.
  intros Hcache Hc Hfield Hlen Harr Hta.
  destruct (getVectorView_fresh s c cls key field len arr ta
              Hcache Hc Hfield Hlen Harr Hta) as (s' & Hrun & Harrays & Hbuffers).
  eexists _, s', _. split; [exact Hrun|].
  split; [rewrite Harrays; by apply list_lookup_middle|].
  split; [by apply (getVectorView_caches s)|].
  simpl. repeat split; lia.
Qed.

(** ** After [destroy], the data stays *)

(** X11.  [destroy] touches neither the component classes nor the arrays
    nor the view cache of the handle: afterwards every [getValue], on any
    handle, reads what it read before, and every view the handle had cached
    is still what [getVectorView] returns. *)
Theorem destroy_keeps_data s s' :
  destroy s = (Returned tt, s') →
  components (world s') = components (world s) ∧
  memory (world s') = memory (world s) ∧
  index (this s') = index (this s) ∧
  (∀ e c key,
     fst (getValue c key {| this := e; world := world s' |}) =
     fst (getValue c key {| this := e; world := world s |})) ∧
  (∀ c key view,
     cachedView (this s) c key = Some view →
     getVectorView c key s' = (Returned view, s')).
Proof.
  intros Hrun.
  destruct (mutate_returned_inv Destroy s s' Hrun) as [Hact _].
  rewrite (destroy_active s Hact) in Hrun. injection Hrun as <-.
  simpl. repeat split; try done.
  - intros e c key. by apply getValue_depends.
  - intros c key view Hcache. by apply getVectorView_cached.
Qed.

(** ** Sequences of calls *)

(** What one call adds to the trace, and what it does to the active flag
    and the index. *)
Lemma perform_step (call : Call) s :
  index (this (perform call s)) = index (this s) ∧
  active (this (perform call s)) = active (this s) && negb (is_destroy call) ∧
  ∃ evs,
    trace (world (perform call s)) = trace (world s) ++ evs ∧
    Forall (λ ev, event_index ev = index (this s)) evs ∧
    length (filter (λ ev, is_release ev = true) evs) =
      (if active (this s) && is_destroy call then 1 else 0).
Proof.
  destruct call as [m | c | c key | c key v | c key].
  - simpl. destruct (mutate m s) as [[[]|x] s1] eqn:Hrun; simpl.
    + destruct (mutate_returned_inv m s s1 Hrun) as [Hact Hreg]. rewrite Hact.
      destruct m as [c d | c | ]; simpl in Hrun.
      * destruct Hreg as (cls & b & Hc & Hb).
        destruct (addComponent_active s c cls b d Hact Hc Hb)
          as (data & mem & _ & Hadd).
        rewrite Hadd in Hrun. injection Hrun as <-. simpl.
        repeat split; [done|]. eexists. rewrite <- app_assoc.
        split; [done|]. split; [|done]. by repeat constructor.
      * destruct Hreg as (cls & b & Hc & Hb).
        rewrite (removeComponent_active s c cls b Hact Hc Hb) in Hrun.
        injection Hrun as <-. simpl.
        repeat split; [done|]. eexists.
        split; [done|]. split; [|done]. by repeat constructor.
      * rewrite (destroy_active s Hact) in Hrun. injection Hrun as <-. simpl.
        repeat split. eexists. rewrite <- app_assoc.
        split; [done|]. split; [|done]. by repeat constructor.
    + rewrite (mutate_thrown_unchanged m s x s1 Hrun).
      destruct (active (this s)) eqn:Hact; destruct m as [c d | c | ]; simpl in *;
        try (by rewrite (destroy_active s Hact) in Hrun);
        (split; [done|]; split; [done|]; exists []; by rewrite app_nil_r).
  - simpl. rewrite hasComponent_pure, andb_true_r, andb_false_r.
    repeat split. exists []. by rewrite app_nil_r.
  - simpl. rewrite getValue_pure, andb_true_r, andb_false_r.
    repeat split. exists []. by rewrite app_nil_r.
  - pose proof (setValue_this c key v s) as Hthis.
    assert (Htrace : trace (world (snd (setValue c key v s))) = trace (world s)).
    { clear. unfold_methods. simpl.
      destruct (components (world s) !! c) as [cls|]; simpl; [|done].
      destruct (c_data cls !! key); done. }
    simpl. rewrite Hthis, Htrace, andb_true_r, andb_false_r.
    repeat split. exists []. by rewrite app_nil_r.
  - destruct (getVectorView_this c key s) as (Hact & _ & Hidx).
    assert (Htrace : trace (world (snd (getVectorView c key s))) = trace (world s)).
    { clear. unfold_methods. simpl.
      destruct (cachedView (this s) c key); simpl; [done|].
      destruct (components (world s) !! c) as [cls|]; simpl; [|done].
      destruct (c_schema cls !! key) as [field|]; simpl; [|done].
      destruct (TypedArrayMap !! sf_type field) as [len|]; simpl; [|done].
      destruct (c_data cls !! key) as [arr|]; simpl; [|done].
      destruct (subarray _ _ _ _) as [[view m]|]; simpl; done. }
    simpl. rewrite Hact, Hidx, Htrace, andb_true_r, andb_false_r.
    repeat split. exists []. by rewrite app_nil_r.
Qed.

(** X12.  Over any sequence of calls, the index of the handle stays the
    same, the trace only grows, and every call the handle makes on a
    manager is about its own index. *)
Theorem handle_speaks_for_its_index (calls : list Call) s :
  index (this (performAll calls s)) = index (this s) ∧
  ∃ evs,
    trace (world (performAll calls s)) = trace (world s) ++ evs ∧
    Forall (λ ev, event_index ev = index (this s)) evs.
Proof.
  revert s. induction calls as [|call calls IH]; intros s.
  { split; [done|]. exists []. by rewrite app_nil_r. }
  simpl. destruct (perform_step call s) as (Hidx & _ & evs1 & Htr1 & Hall1 & _).
  destruct (IH (perform call s)) as (Hidx' & evs2 & Htr2 & Hall2).
  split; [congruence|]. exists (evs1 ++ evs2).
  rewrite Htr2, Htr1, app_assoc. split; [done|].
  apply Forall_app. split; [done|]. by rewrite <- Hidx.
Qed.

(** X13.  Over any sequence of calls on a handle, [releaseEntityInstance]
    is called once if the handle was active and [destroy] is among the
    calls, and not at all otherwise: a second [destroy] releases nothing
    and no other method releases. *)
Theorem released_exactly_once (calls : list Call) s :
  ∃ evs,
    trace (world (performAll calls s)) = trace (world s) ++ evs ∧
    length (filter (λ ev, is_release ev = true) evs) =
      (if active (this s) && existsb is_destroy calls then 1 else 0).
Proof.
  revert s. induction calls as [|call calls IH]; intros s.
  { exists []. rewrite app_nil_r, andb_false_r. done. }
  simpl. destruct (perform_step call s) as (_ & Hact & evs1 & Htr1 & _ & Hrel1).
  destruct (IH (perform call s)) as (evs2 & Htr2 & Hrel2).
  exists (evs1 ++ evs2). rewrite Htr2, Htr1, app_assoc. split; [done|].
  rewrite filter_app, length_app, Hrel1, Hrel2, Hact.
  destruct (active (this s)), (is_destroy call), (existsb is_destroy calls); done.
Qed.

(** The bit of every class is the same after any call: only
    [addComponent] writes to the table of classes, and it puts the class
    back with its bitmask. *)
Lemma perform_keeps_bit_of (call : Call) s c :
  bit_of (world (perform call s)) c = bit_of (world s) c.
Proof.
  destruct call as [m | c' | c' key | c' key v | c' key]; simpl.
  - destruct (mutate m s) as [[[]|x] s1] eqn:Hrun; simpl.
    + destruct (mutate_returned_inv m s s1 Hrun) as [Hact Hreg].
      destruct m as [c' d | c' | ]; simpl in Hrun.
      * destruct Hreg as (cls & b & Hc & Hb).
        destruct (addComponent_active s c' cls b d Hact Hc Hb)
          as (data & mem & _ & Hadd).
        rewrite Hadd in Hrun. injection Hrun as <-. unfold bit_of. simpl.
        destruct (decide (c' = c)) as [->|Hne].
        -- by rewrite lookup_insert_eq, Hc.
        -- by rewrite lookup_insert_ne.
      * destruct Hreg as (cls & b & Hc & Hb).
        rewrite (removeComponent_active s c' cls b Hact Hc Hb) in Hrun.
        by injection Hrun as <-.
      * rewrite (destroy_active s Hact) in Hrun. by injection Hrun as <-.
    + by rewrite (mutate_thrown_unchanged m s x s1 Hrun).
  - by rewrite hasComponent_pure.
  - by rewrite getValue_pure.
  - unfold bit_of. f_equal. f_equal. clear. unfold_methods. simpl.
    destruct (components (world s) !! c') as [cls|]; simpl; [|done].
    destruct (c_data cls !! key); done.
  - unfold bit_of. by rewrite getVectorView_keeps_components.
Qed.

Lemma and_or_disjoint (a b' b : BitSet.t) :
  BitSet.and b' b = BitSet.empty →
  BitSet.and (BitSet.or a b') b = BitSet.and a b.
Proof.
  unfold BitSet.and, BitSet.or, BitSet.empty. intros Hdisj.
  apply N.bits_inj. intros i.
  assert (Hi : N.testbit (N.land b' b) i = false) by (rewrite Hdisj; apply N.bits_0).
  rewrite N.land_spec in Hi. rewrite !N.land_spec, N.lor_spec.
  destruct (N.testbit a i), (N.testbit b' i), (N.testbit b i); simpl in *; congruence.
Qed.

Lemma and_andNot_disjoint (a b' b : BitSet.t) :
  BitSet.and b' b = BitSet.empty →
  BitSet.and (BitSet.andNot a b') b = BitSet.and a b.
Proof.
  unfold BitSet.and, BitSet.andNot, BitSet.empty. intros Hdisj.
  apply N.bits_inj. intros i.
  assert (Hi : N.testbit (N.land b' b) i = false) by (rewrite Hdisj; apply N.bits_0).
  rewrite N.land_spec in Hi. rewrite !N.land_spec, N.ldiff_spec.
  destruct (N.testbit a i), (N.testbit b' i), (N.testbit b i); simpl in *; congruence.
Qed.

(** One call, followed on the handle and on [expected_holds]. *)
Lemma perform_tracks (call : Call) s c (b : BitSet.t) :
  bit_of (world s) c = b →
  b ≠ BitSet.empty →
  (∀ c', c' ≠ c → BitSet.and (bit_of (world s) c') b = BitSet.empty) →
  (active (this (perform call s)), holds_bit (perform call s) b) =
    expected_holds c (active (this s), holds_bit s b) call.
Proof.
  intros Hbit Hne Hdisj.
  destruct call as [m | c' | c' key | c' key v | c' key]; simpl.
  - destruct (mutate m s) as [[[]|x] s1] eqn:Hrun; simpl.
    + destruct (mutate_returned_inv m s s1 Hrun) as [Hact Hreg].
      destruct m as [c' d | c' | ]; simpl in Hrun.
      * destruct Hreg as (cls & b' & Hc & Hb).
        destruct (addComponent_active s c' cls b' d Hact Hc Hb)
          as (data & mem & _ & Hadd).
        rewrite Hadd in Hrun. injection Hrun as <-.
        unfold holds_bit. simpl. rewrite Hact. simpl. f_equal.
        assert (Hb' : bit_of (world s) c' = b')
          by (unfold bit_of; rewrite Hc; simpl; by rewrite Hb).
        case_bool_decide as Hcc.
        -- subst c'. rewrite Hb' in Hbit. subst b'.
           by apply and_or_same_nonempty.
        -- rewrite and_or_disjoint; [done|]. rewrite <- Hb'. by apply Hdisj.
      * destruct Hreg as (cls & b' & Hc & Hb).
        rewrite (removeComponent_active s c' cls b' Hact Hc Hb) in Hrun.
        injection Hrun as <-.
        unfold holds_bit. simpl. rewrite Hact. simpl. f_equal.
        assert (Hb' : bit_of (world s) c' = b')
          by (unfold bit_of; rewrite Hc; simpl; by rewrite Hb).
        case_bool_decide as Hcc.
        -- subst c'. rewrite Hb' in Hbit. subst b'.
           by rewrite and_andNot_same.
        -- rewrite and_andNot_disjoint; [done|]. rewrite <- Hb'. by apply Hdisj.
      * rewrite (destroy_active s Hact) in Hrun. injection Hrun as <-.
        unfold holds_bit. simpl. by rewrite Hact.
    + rewrite (mutate_thrown_unchanged m s x s1 Hrun).
      destruct (active (this s)) eqn:Hact.
      * destruct m as [c' d | c' | ]; simpl in *.
        -- case_bool_decide as Hcc; [|done]. subst c'. exfalso.
           unfold bit_of in Hbit.
           destruct (components (world s) !! c) as [cls|] eqn:Hc;
             [|by simpl in Hbit].
           simpl in Hbit. destruct (c_bitmask cls) as [b0|] eqn:Hb0;
             [|by simpl in Hbit].
           destruct (addComponent_active s c cls b0 d Hact Hc Hb0)
             as (data & mem & _ & Hadd). by rewrite Hadd in Hrun.
        -- case_bool_decide as Hcc; [|done]. subst c'. exfalso.
           unfold bit_of in Hbit.
           destruct (components (world s) !! c) as [cls|] eqn:Hc;
             [|by simpl in Hbit].
           simpl in Hbit. destruct (c_bitmask cls) as [b0|] eqn:Hb0;
             [|by simpl in Hbit].
           by rewrite (removeComponent_active s c cls b0 Hact Hc Hb0) in Hrun.
        -- by rewrite (destroy_active s Hact) in Hrun.
      * destruct m; done.
  - by rewrite hasComponent_pure.
  - by rewrite getValue_pure.
  - unfold holds_bit. by rewrite setValue_this.
  - unfold holds_bit. by destruct (getVectorView_this c' key s) as (-> & -> & _).
Qed.

(** X14.  For a class [C] whose bitmask is not empty and shares no bit
    with the bitmask of any other class, and over any sequence of calls on
    the handle: [hasComponent(C)] returns [true] exactly when the last
    [addComponent(C)] or [removeComponent(C)] made while the handle was
    active was an [addComponent], no [destroy] having come since (and, if
    there was none of the three, when it returned [true] at the start).
    Calls on other classes, calls that throw, and the reading and writing
    of fields do not count. *)
Theorem hasComponent_follows_calls (calls : list Call) s c cls b :
  components (world s) !! c = Some cls →
  c_bitmask cls = Some b →
  b ≠ BitSet.empty →
  (∀ c', c' ≠ c → BitSet.and (bit_of (world s) c') b = BitSet.empty) →
  hasComponent c (performAll calls s) =
    (Returned (snd (foldl (expected_holds c) (active (this s), holds_bit s b) calls)),
     performAll calls s).
Proof.
  intros Hc Hb Hne Hdisj.
  assert (Hbit : bit_of (world s) c = b)
    by (unfold bit_of; rewrite Hc; simpl; by rewrite Hb).
  clear Hc Hb cls.
  revert s Hbit Hdisj. induction calls as [|call calls IH]; intros s Hbit Hdisj.
  - simpl. unfold bit_of in Hbit.
    destruct (components (world s) !! c) as [cls|] eqn:Hc; [|by simpl in Hbit].
    simpl in Hbit. destruct (c_bitmask cls) as [b0|] eqn:Hb0; [|by simpl in Hbit].
    simpl in Hbit. subst b0.
    unfold_methods. simpl. rewrite Hc. simpl. by rewrite Hb0.
  - simpl. rewrite <- (perform_tracks call s c b Hbit Hne Hdisj).
    apply IH.
    + by rewrite perform_keeps_bit_of.
    + intros c' Hcc. rewrite perform_keeps_bit_of. by apply Hdisj.
Qed.

(** ** Adding what is held, removing what is not *)

Lemma or_subset (a b : BitSet.t) :
  BitSet.andNot b a = BitSet.empty → BitSet.or a b = a.
Proof.
  unfold BitSet.andNot, BitSet.or, BitSet.empty. intros Hsub.
  apply N.bits_inj. intros i.
  assert (Hi : N.testbit (N.ldiff b a) i = false) by (rewrite Hsub; apply N.bits_0).
  rewrite N.ldiff_spec in Hi. rewrite N.lor_spec.
  destruct (N.testbit a i), (N.testbit b i); simpl in *; congruence.
Qed.

Lemma set_bitmask_same e : set_bitmask (bitmask e) e = e.
Proof. by destruct e. Qed.

(** X15.  [addComponent(C, d)] does not look whether the handle holds [C]
    already: on a handle that does, it returns, leaves the handle as it
    is, and still hands [d] to [attachComponentToEntity] and notifies the
    query manager. *)
Theorem addComponent_again s c cls b d :
  active (this s) = true →
  components (world s) !! c = Some cls →
  c_bitmask cls = Some b →
  BitSet.andNot b (bitmask (this s)) = BitSet.empty →
  ∃ s',
    addComponent c d s = (Returned tt, s') ∧
    this s' = this s ∧
    trace (world s') =
      trace (world s) ++ [EvAttach (index (this s)) c (default ∅ d); EvUpdate (this s)] ∧
    memory (world s') =
      snd (attachComponentToEntity (index (this s)) cls (default ∅ d)
             (memory (world s))).
Proof.
  intros Hact Hc Hb Hsub.
  destruct (addComponent_active s c cls b d Hact Hc Hb) as (data & mem & Hatt & Hadd).
  eexists. split; [exact Hadd|]. simpl.
  rewrite (or_subset _ _ Hsub), set_bitmask_same, Hatt, <- app_assoc. done.
Qed.

(** X16.  [removeComponent(C)] does not look whether the handle holds
    [C]: on an active handle that does not, it raises no error, leaves the
    handle as it is, and still notifies the query manager once. *)
Theorem removeComponent_not_held s c cls b :
  active (this s) = true →
  components (world s) !! c = Some cls →
  c_bitmask cls = Some b →
  BitSet.and (bitmask (this s)) b = BitSet.empty →
  ∃ s',
    removeComponent c s = (Returned tt, s') ∧
    this s' = this s ∧
    trace (world s') = trace (world s) ++ [EvUpdate (this s)].
Proof.
  intros Hact Hc Hb Hdisj. eexists.
  split; [apply (removeComponent_active s c cls b Hact Hc Hb)|]. simpl.
  by rewrite (andNot_disjoint _ _ Hdisj), set_bitmask_same.
Qed.

End Further.

(** * The further properties, run in the small world *)

Lemma addComponent_then_hasComponent_witness :
  components (world state0) !! 0 = Some Position ∧
  c_bitmask Position = Some 1%N ∧
  1%N ≠ BitSet.empty ∧
  addComponent 0 None state0 = (Returned tt, holdingPosition) ∧
  hasComponent 0 holdingPosition = (Returned true, holdingPosition).
Proof.
  split; [vm_compute; reflexivity|]. split; [reflexivity|].
  split; [discriminate|]. split; [vm_compute; reflexivity|].
  apply (addComponent_then_hasComponent state0 0 Position 1%N None holdingPosition);
    [vm_compute; reflexivity | reflexivity | discriminate | vm_compute; reflexivity].
Defined.

Lemma removeComponent_then_hasComponent_witness :
  removeComponent 0 holdingPosition =
    (Returned tt, snd (removeComponent 0 holdingPosition)) ∧
  hasComponent 0 (snd (removeComponent 0 holdingPosition)) =
    (Returned false, snd (removeComponent 0 holdingPosition)).
Proof.
  split; [vm_compute; reflexivity|].
  apply (removeComponent_then_hasComponent holdingPosition 0).
  vm_compute; reflexivity.
Defined.


Lemma slot_beyond_array_witness :
  components world0 !! 0 = Some Position ∧
  c_data Position !! "x" = Some 0 ∧
  arrays (memory world0) !! 0 =
    Some {| ta_kind := Int8; ta_buffer := 0; ta_offset := 0; ta_length := 2 |} ∧
  2 ≤ 5 ∧
  setValue 0 "x" (JNumber 9) {| this := newEntity 5; world := world0 |} =
    (Returned tt, {| this := newEntity 5; world := world0 |}) ∧
  getValue 0 "x" {| this := newEntity 5; world := world0 |} =
    (Returned JUndefined, {| this := newEntity 5; world := world0 |}).
Proof.
  split; [vm_compute; reflexivity|]. split; [vm_compute; reflexivity|].
  split; [reflexivity|]. split; [lia|].
  apply (slot_beyond_array {| this := newEntity 5; world := world0 |} 0 Position "x" 0
           {| ta_kind := Int8; ta_buffer := 0; ta_offset := 0; ta_length := 2 |}
           (JNumber 9));
    [vm_compute; reflexivity | vm_compute; reflexivity | reflexivity | simpl; lia].
Defined.

Lemma failed_getVectorView_changes_nothing_witness :
  getVectorView 1 "v" holdingPosition = (Thrown TypeError, holdingPosition) ∧
  holdingPosition = holdingPosition ∧ TypeError = TypeError.
Proof.
  split; [vm_compute; reflexivity|].
  apply (failed_getVectorView_changes_nothing holdingPosition 1 "v" TypeError
           holdingPosition).
  vm_compute; reflexivity.
Defined.

Lemma setValue_keeps_other_slots_witness :
  index (newEntity 1) ≠ index (this holdingPosition) ∧
  fst (getValue 0 "x"
         {| this := newEntity 1;
            world := world (snd (setValue 0 "x" (JNumber 9) holdingPosition)) |}) =
    fst (getValue 0 "x" {| this := newEntity 1; world := world holdingPosition |}) ∧
  arrays (memory (world (snd (setValue 0 "x" (JNumber 9) holdingPosition)))) =
    arrays (memory (world holdingPosition)) ∧
  length <$> buffers (memory (world (snd (setValue 0 "x" (JNumber 9) holdingPosition)))) =
    length <$> buffers (memory (world holdingPosition)).
Proof.
  split; [vm_compute; discriminate|].
  apply (setValue_keeps_other_slots holdingPosition 0 "x" (JNumber 9) (newEntity 1)).
  vm_compute; discriminate.
Defined.

Lemma getVectorView_is_window_witness :
  cachedView (newEntity 1) 0 "v" = None ∧
  components world0 !! 0 = Some Position ∧
  c_schema Position !! "v" = Some {| sf_type := "Vec2"; sf_default := JNumber 0 |} ∧
  @TypedArrayMap specManagers !! "Vec2" = Some 2 ∧
  c_data Position !! "v" = Some 1 ∧
  arrays (memory world0) !! 1 =
    Some {| ta_kind := Int8; ta_buffer := 1; ta_offset := 0; ta_length := 4 |} ∧
  buffers (memory world0) !! 1 = Some [0; 0; 0; 0]%Z ∧
  0 + 4 ≤ length [0; 0; 0; 0]%Z ∧
  (1 + 1) * 2 ≤ 4 ∧
  ∃ view s',
    getVectorView 0 "v" {| this := newEntity 1; world := world0 |} =
      (Returned view, s') ∧
    arrays (memory world0) !! view = None ∧
    arrays (memory (world s')) !! view =
      Some {| ta_kind := Int8; ta_buffer := 1; ta_offset := 0 + 1 * 2;
              ta_length := 2 |} ∧
    ∀ j (v : JsValue), j < 2 →
      fst (getValue 0 "v"
             {| this := newEntity (1 * 2 + j);
                world := set_memory (array_set (memory (world s')) view j v)
                           (world s') |}) =
        Returned (JNumber (coerce Int8 v)) ∧
      array_get
        (memory (world (snd (setValue 0 "v" v
                               {| this := newEntity (1 * 2 + j);
                                  world := world s' |}))))
        view j =
        JNumber (coerce Int8 v).
Proof.
  repeat (split; [vm_compute; (reflexivity || lia)|]).
  apply (getVectorView_is_window {| this := newEntity 1; world := world0 |}
           0 Position "v" {| sf_type := "Vec2"; sf_default := JNumber 0 |} 2 1
           {| ta_kind := Int8; ta_buffer := 1; ta_offset := 0; ta_length := 4 |}
           [0; 0; 0; 0]%Z);
    vm_compute; (reflexivity || lia).
Defined.

Lemma getVectorView_stays_within_array_witness :
  cachedView (newEntity 3) 0 "v" = None ∧
  components world0 !! 0 = Some Position ∧
  c_schema Position !! "v" = Some {| sf_type := "Vec2"; sf_default := JNumber 0 |} ∧
  @TypedArrayMap specManagers !! "Vec2" = Some 2 ∧
  c_data Position !! "v" = Some 1 ∧
  arrays (memory world0) !! 1 =
    Some {| ta_kind := Int8; ta_buffer := 1; ta_offset := 0; ta_length := 4 |} ∧
  ∃ view s' window,
    getVectorView 0 "v" {| this := newEntity 3; world := world0 |} =
      (Returned view, s') ∧
    arrays (memory (world s')) !! view = Some window ∧
    cachedView (this s') 0 "v" = Some view ∧
    ta_buffer window = 1 ∧
    ta_length window ≤ 2 ∧
    0 ≤ ta_offset window ∧
    ta_offset window + ta_length window ≤ 0 + 4 ∧
    (4 ≤ 3 * 2 → ta_length window = 0).
Proof.
  repeat (split; [vm_compute; reflexivity|]).
  apply (getVectorView_stays_within_array {| this := newEntity 3; world := world0 |}
           0 Position "v" {| sf_type := "Vec2"; sf_default := JNumber 0 |} 2 1
           {| ta_kind := Int8; ta_buffer := 1; ta_offset := 0; ta_length := 4 |});
    vm_compute; reflexivity.
Defined.

Lemma destroy_keeps_data_witness :
  destroy holdingPosition = (Returned tt, afterDestroy) ∧
  components (world afterDestroy) = components (world holdingPosition) ∧
  memory (world afterDestroy) = memory (world holdingPosition) ∧
  index (this afterDestroy) = index (this holdingPosition) ∧
  (∀ e c key,
     fst (getValue c key {| this := e; world := world afterDestroy |}) =
     fst (getValue c key {| this := e; world := world holdingPosition |})) ∧
  (∀ c key view,
     cachedView (this holdingPosition) c key = Some view →
     getVectorView c key afterDestroy = (Returned view, afterDestroy)).
Proof.
  split; [vm_compute; reflexivity|].
  apply (destroy_keeps_data holdingPosition afterDestroy).
  vm_compute; reflexivity.
Defined.

(** In the small world, the bit of [Position] is in no other class's
    bitmask. *)
Lemma world0_Position_bit_is_its_own :
  ∀ c', c' ≠ 0 → BitSet.and (bit_of (world state0) c') 1%N = BitSet.empty.
Proof.
  intros [|[|[|n]]] Hne; [done | reflexivity | reflexivity |].
  unfold bit_of, state0, world0. simpl.
  rewrite !lookup_insert_ne by lia. by rewrite lookup_singleton_ne by lia.
Qed.

Lemma hasComponent_follows_calls_witness :
  components (world state0) !! 0 = Some Position ∧
  c_bitmask Position = Some 1%N ∧
  1%N ≠ BitSet.empty ∧
  (∀ c', c' ≠ 0 → BitSet.and (bit_of (world state0) c') 1%N = BitSet.empty) ∧
  hasComponent 0
    (performAll [Mutate (AddComponent 1 None); Mutate (AddComponent 0 None);
                 SetValue 0 "x" (JNumber 4); Mutate (RemoveComponent 1);
                 Mutate (RemoveComponent 2)] state0) =
    (Returned
       (snd (foldl (expected_holds 0) (active (this state0), holds_bit state0 1%N)
               [Mutate (AddComponent 1 None); Mutate (AddComponent 0 None);
                SetValue 0 "x" (JNumber 4); Mutate (RemoveComponent 1);
                Mutate (RemoveComponent 2)])),
     performAll [Mutate (AddComponent 1 None); Mutate (AddComponent 0 None);
                 SetValue 0 "x" (JNumber 4); Mutate (RemoveComponent 1);
                 Mutate (RemoveComponent 2)] state0).
Proof.
  split; [vm_compute; reflexivity|]. split; [reflexivity|].
  split; [discriminate|]. split; [exact world0_Position_bit_is_its_own|].
  apply (hasComponent_follows_calls _ state0 0 Position 1%N);
    [vm_compute; reflexivity | reflexivity | discriminate
    | exact world0_Position_bit_is_its_own].
Defined.

Lemma addComponent_again_witness :
  active (this holdingPosition) = true ∧
  components (world holdingPosition) !! 0 = Some Position ∧
  c_bitmask Position = Some 1%N ∧
  BitSet.andNot 1%N (bitmask (this holdingPosition)) = BitSet.empty ∧
  ∃ s',
    addComponent 0 (Some {[ "x" := JNumber 5 ]}) holdingPosition = (Returned tt, s') ∧
    this s' = this holdingPosition ∧
    trace (world s') =
      trace (world holdingPosition) ++
      [EvAttach (index (this holdingPosition)) 0
         (default ∅ (Some {[ "x" := JNumber 5 ]}));
       EvUpdate (this holdingPosition)] ∧
    memory (world s') =
      snd (attachComponentToEntity (index (this holdingPosition)) Position
             (default ∅ (Some {[ "x" := JNumber 5 ]}))
             (memory (world holdingPosition))).
Proof.
  split; [reflexivity|]. split; [vm_compute; reflexivity|].
  split; [reflexivity|]. split; [reflexivity|].
  apply (addComponent_again holdingPosition 0 Position 1%N
           (Some {[ "x" := JNumber 5 ]}));
    [reflexivity | vm_compute; reflexivity | reflexivity | reflexivity].
Defined.

Lemma removeComponent_not_held_witness :
  active (this holdingPosition) = true ∧
  components (world holdingPosition) !! 1 = Some Velocity ∧
  c_bitmask Velocity = Some 2%N ∧
  BitSet.and (bitmask (this holdingPosition)) 2%N = BitSet.empty ∧
  ∃ s',
    removeComponent 1 holdingPosition = (Returned tt, s') ∧
    this s' = this holdingPosition ∧
    trace (world s') = trace (world holdingPosition) ++ [EvUpdate (this holdingPosition)].
Proof.
  split; [reflexivity|]. split; [vm_compute; reflexivity|].
  split; [reflexivity|]. split; [reflexivity|].
  apply (removeComponent_not_held holdingPosition 1 Velocity 2%N);
    [reflexivity | vm_compute; reflexivity | reflexivity | reflexivity].
Defined.
